(** * Ticket lifecycle and access control of [backend-server.js]

    A shallow embedding of the Express handlers of [src/backend-server.js]
    over an explicit model of the relational store they query.

    - A request body is the JSON object produced by [express.json()]: a finite
      map from property names to scalar JSON values.  A missing property is
      JavaScript's [undefined], modelled by a failed lookup.
    - The store is the three tables [users], [tickets] and [comments], each a
      list of rows, together with the sequences that generate row ids.
    - A handler is a function from the store (and the request) to the response
      it sends and the store it leaves behind.  [CURRENT_TIMESTAMP] is the
      [now] carried by the request.
    - [bcrypt], [jsonwebtoken] and the pool are outside the source: a request
      carries the outcome of the token check and of the password hash.
    - The table declarations, the database server and the driver are not in
      the source.  What they decide is a parameter of the development, the
      class [database]: how the server reads text as an integer, the text
      the driver sends for a number, and whether a column takes a value.
      Ids are integers drawn from sequences and [users.email] is unique
      (the register handler looks for that violation). *)

From stdpp Require Import gmap strings list pretty sorting.
From Stdlib Require Import ZArith DecimalString.

Open Scope string_scope.
Open Scope Z_scope.
Open Scope list_scope.

(** ** JSON scalars and the JavaScript operators the handlers use *)

Inductive jsval :=
| JNull
| JBool (b : bool)
| JNum (n : Z)
| JStr (s : string).

Global Instance jsval_eq_dec : EqDecision jsval.
Proof. solve_decision. Defined.

(** ToBoolean: [null], [false], [0] and the empty string are falsy. *)
Definition truthy (v : jsval) : bool :=
  match v with
  | JNull => false
  | JBool b => b
  | JNum n => negb (Z.eqb n 0)
  | JStr s => negb (String.eqb s "")
  end.

(** [v || d], where [v] may be [undefined]. *)
Definition js_or (v : option jsval) (d : jsval) : jsval :=
  match v with
  | Some x => if truthy x then x else d
  | None => d
  end.

(** ** The database and the driver

    The driver sends [undefined] and [null] as NULL and every other scalar as
    text; the server reads the text according to the type of the column and
    checks it against the declaration of the table. *)

(** What the database says of a value bound to a column: it is stored; it
    cannot be read, and the statement fails before it runs; or it is read
    and a constraint of the table refuses the row. *)
Inductive verdict :=
| Stored
| Invalid
| Violated.

Global Instance verdict_eq_dec : EqDecision verdict.
Proof. solve_decision. Defined.

(** The first failure decides: a value that cannot be read fails the
    statement before any constraint is looked at. *)
Definition worst (v1 v2 : verdict) : verdict :=
  match v1, v2 with
  | Invalid, _ | _, Invalid => Invalid
  | Violated, _ | _, Violated => Violated
  | Stored, Stored => Stored
  end.

(** The characters of the text of a JavaScript number: digits, sign, point,
    exponent, and the letters of [Infinity] and [NaN]. *)
Fixpoint occurs (c : Ascii.ascii) (s : string) : bool :=
  match s with
  | EmptyString => false
  | String c' s' => Ascii.eqb c c' || occurs c s'
  end.

Definition numeric_char (c : Ascii.ascii) : bool :=
  let k := Ascii.nat_of_ascii c in
  (Nat.leb 48 k && Nat.leb k 57) || occurs c "+-.eInfinityNaN".

Fixpoint numeric (s : string) : bool :=
  match s with
  | EmptyString => true
  | String c s' => numeric_char c && numeric s'
  end.

Class database := Database {
  (** the server's reading of text as a 4-byte integer; [None] when the
      text is not an integer or is out of range *)
  int4_in : string → option Z;
  (** the text the driver sends for a JSON number *)
  number_text : Z → string;
  (** the verdict of the table on a text or NULL bound to a column *)
  accepts : string → option string → verdict;
  number_text_numeric : ∀ n, numeric (number_text n) = true
}.

(** ** Shapes shared by the handlers *)

(** The outcome of an [INSERT]: the new row, the unique violation 23505, or
    any other error of the database. *)
Inductive inserted (A : Type) :=
| Row (x : A)
| UniqueViolation
| DbError.
Arguments Row {A} x.
Arguments UniqueViolation {A}.
Arguments DbError {A}.

(** A field of a patch: left as it is, or set. *)
Inductive change (A : Type) :=
| Keep
| SetTo (x : A).
Arguments Keep {A}.
Arguments SetTo {A} x.

(** The answer of a route that only reads. *)
Inductive reply (A : Type) :=
| Sent (status : nat) (body : A)
| Refused (status : nat) (msg : string)
| Failed.
Arguments Sent {A} status body.
Arguments Refused {A} status msg.
Arguments Failed {A}.

Section Server.
Context `{db : database}.

(** The text the driver sends: NULL or the text of the value. *)
Definition text_in (v : jsval) : option string :=
  match v with
  | JNull => None
  | JBool b => Some (if b then "true" else "false")
  | JNum n => Some (number_text n)
  | JStr s => Some s
  end.

(** A route parameter such as [req.params.id], read as an integer. *)
Definition ticket_key (s : string) : option Z := int4_in s.

(** An integer column: the outer [None] is the server rejecting the text,
    [Some None] is NULL. *)
Definition int_in (v : jsval) : option (option Z) :=
  match text_in v with
  | None => Some None
  | Some s => Some <$> ticket_key s
  end.

(** A parameter that may be [undefined]. *)
Definition text_param (v : option jsval) : option string := v ≫= text_in.

(** ** Tables *)

Record user := User {
  user_id : Z;
  email : option string;
  password_hash : string;
  full_name : option string;
  user_role : option string
}.

Record ticket := Ticket {
  ticket_id : Z;
  client_id : Z;
  title : option string;
  description : option string;
  priority : option string;
  category : option string;
  status : option string;
  assigned_to : option Z;
  resolution_notes : option string;
  created_at : Z;
  updated_at : Z;
  closed_at : option Z
}.

Record comment := Comment {
  comment_id : Z;
  comment_ticket_id : Z;
  comment_user_id : Z;
  comment_text : option string;
  comment_created_at : Z
}.

Record store := Store {
  users : list user;
  tickets : list ticket;
  comments : list comment;
  next_user_id : Z;
  next_ticket_id : Z;
  next_comment_id : Z
}.

Definition empty_store : store := Store [] [] [] 1 1 1.

Global Instance ticket_eq_dec : EqDecision ticket.
Proof. solve_decision. Defined.

Definition verdicts (vs : list verdict) : verdict := foldr worst Stored vs.

(** A statement that fails after its row was formed has drawn from the
    sequence all the same. *)
Definition skip_user_id (s : store) : store :=
  {| users := users s; tickets := tickets s; comments := comments s;
     next_user_id := next_user_id s + 1; next_ticket_id := next_ticket_id s;
     next_comment_id := next_comment_id s |}.

Definition skip_ticket_id (s : store) : store :=
  {| users := users s; tickets := tickets s; comments := comments s;
     next_user_id := next_user_id s; next_ticket_id := next_ticket_id s + 1;
     next_comment_id := next_comment_id s |}.

Definition skip_comment_id (s : store) : store :=
  {| users := users s; tickets := tickets s; comments := comments s;
     next_user_id := next_user_id s; next_ticket_id := next_ticket_id s;
     next_comment_id := next_comment_id s + 1 |}.

(** Modelled from the spec: the declaration of the [tickets] table is not in
    the source.  The [INSERT] of the create handler names five columns; the
    others take the defaults of section 4.3 of the specification ([status]
    open, [closedAt] null, [createdAt] and [updatedAt] the current time), an
    unassigned ticket has no assignee and no resolution notes, and
    [ticket_id] is generated by the store. *)
Definition insert_ticket (s : store) (client : Z)
    (ttl dsc prio cat : option string) (now : Z) : inserted ticket * store :=
  let t := {| ticket_id := next_ticket_id s; client_id := client;
              title := ttl; description := dsc; priority := prio;
              category := cat; status := Some "open"; assigned_to := None;
              resolution_notes := None; created_at := now;
              updated_at := now; closed_at := None |} in
  match verdicts [accepts "tickets.title" ttl;
                  accepts "tickets.description" dsc;
                  accepts "tickets.priority" prio;
                  accepts "tickets.category" cat] with
  | Invalid => (DbError, s)
  | Violated => (DbError, skip_ticket_id s)
  | Stored =>
      (Row t, {| users := users s; tickets := tickets s ++ [t];
                 comments := comments s; next_user_id := next_user_id s;
                 next_ticket_id := next_ticket_id s + 1;
                 next_comment_id := next_comment_id s |})
  end.

(** Modelled from the spec: the declaration of the [comments] table is not in
    the source; [comment_id] is generated and [created_at] is the current
    time (section 3 of the specification). *)
Definition insert_comment (s : store) (tid uid : Z) (txt : option string)
    (now : Z) : inserted comment * store :=
  let c := {| comment_id := next_comment_id s; comment_ticket_id := tid;
              comment_user_id := uid; comment_text := txt;
              comment_created_at := now |} in
  match accepts "comments.comment_text" txt with
  | Invalid => (DbError, s)
  | Violated => (DbError, skip_comment_id s)
  | Stored =>
      (Row c, {| users := users s; tickets := tickets s;
                 comments := comments s ++ [c]; next_user_id := next_user_id s;
                 next_ticket_id := next_ticket_id s;
                 next_comment_id := next_comment_id s + 1 |})
  end.

(** Modelled from the spec: the declaration of the [users] table is not in
    the source; [user_id] is generated and unique (section 3 of the
    specification), and a second row with the same email is the unique
    violation 23505 the register handler looks for.  The refused row has
    drawn its id from the sequence. *)
Definition insert_user (s : store) (em : option string) (hash : string)
    (name : option string) (rl : option string) : inserted user * store :=
  let u := {| user_id := next_user_id s; email := em;
              password_hash := hash; full_name := name;
              user_role := rl |} in
  match verdicts [accepts "users.email" em; accepts "users.full_name" name;
                  accepts "users.role" rl] with
  | Invalid => (DbError, s)
  | Violated => (DbError, skip_user_id s)
  | Stored =>
      if bool_decide (is_Some em ∧ em ∈ email <$> users s)
      then (UniqueViolation, skip_user_id s)
      else
        (Row u, {| users := users s ++ [u]; tickets := tickets s;
                   comments := comments s; next_user_id := next_user_id s + 1;
                   next_ticket_id := next_ticket_id s;
                   next_comment_id := next_comment_id s |})
  end.

Definition with_tickets (s : store) (ts : list ticket) : store :=
  {| users := users s; tickets := ts; comments := comments s;
     next_user_id := next_user_id s; next_ticket_id := next_ticket_id s;
     next_comment_id := next_comment_id s |}.

(** ** Requests and responses *)

(** What [jwt.verify] hands to the handlers as [req.user]. *)
Record jwt_user := JwtUser {
  userId : Z;
  jwt_email : string;
  role : string
}.

(** The [Authorization] header as [authenticateToken] sees it. *)
Inductive credential :=
| NoToken
| BadToken
| Token (u : jwt_user).

Record ticket_row := TicketRow {
  row_ticket : ticket;
  client_name : option string;
  assigned_to_name : option string
}.

Record comment_row := CommentRow {
  row_comment : comment;
  author_name : option string
}.

Record stats := Stats {
  open_tickets : nat;
  in_progress_tickets : nat;
  closed_tickets : nat;
  total_tickets : nat
}.

Inductive payload :=
| PError (msg : string)
| PDbError
| PUser (uid : Z) (em name rl : option string)
| PTicketRows (rows : list ticket_row)
| PTicketRow (row : ticket_row)
| PTicket (t : ticket)
| PCommentRows (rows : list comment_row)
| PComment (c : comment)
| PStats (st : stats).

(** [res.status(code).json(payload)] *)
Record response := Json {
  code : nat;
  sent : payload
}.

(** [authenticateToken]: 401 without a token, 403 when [jwt.verify] fails,
    otherwise the handler runs with [req.user]. *)
Definition authenticateToken (c : credential)
    (next : jwt_user → response * store) (s : store) : response * store :=
  match c with
  | NoToken => (Json 401 (PError "Access denied"), s)
  | BadToken => (Json 403 (PError "Invalid token"), s)
  | Token u => next u
  end.

(** ** Queries *)

(** [LEFT JOIN users u ON key = u.user_id], projected on [u.full_name]: one
    row for each matching user, or a single NULL when there is none. *)
Definition joined_name (us : list user) (key : option Z) : list (option string) :=
  match filter (λ u, key = Some (user_id u)) us with
  | [] => [None]
  | m => full_name <$> m
  end.

(** [SELECT t.*, u.full_name as client_name, a.full_name as assigned_to_name
     FROM tickets t LEFT JOIN users u ... LEFT JOIN users a ...] *)
Definition select_tickets (s : store) : list ticket_row :=
  t ← tickets s;
  cn ← joined_name (users s) (Some (client_id t));
  an ← joined_name (users s) (assigned_to t);
  [TicketRow t cn an].

(** [ORDER BY t.created_at DESC] *)
Definition newest_first (r1 r2 : ticket_row) : Prop :=
  (created_at (row_ticket r2) ≤ created_at (row_ticket r1))%Z.

Global Instance newest_first_dec : RelDecision newest_first.
Proof. intros r1 r2. unfold newest_first. apply _. Defined.

(** [SELECT c.*, u.full_name as author_name FROM comments c
     LEFT JOIN users u ON c.user_id = u.user_id] *)
Definition select_comments (s : store) : list comment_row :=
  c ← comments s;
  n ← joined_name (users s) (Some (comment_user_id c));
  [CommentRow c n].

(** [ORDER BY c.created_at ASC] *)
Definition oldest_first (r1 r2 : comment_row) : Prop :=
  (comment_created_at (row_comment r1) ≤ comment_created_at (row_comment r2))%Z.

Global Instance oldest_first_dec : RelDecision oldest_first.
Proof. intros r1 r2. unfold oldest_first. apply _. Defined.

(** The [UPDATE] statement as the handler assembles it: a list of
    assignments [column = $n] or [column = CURRENT_TIMESTAMP], the bound
    values, and the number of the next placeholder. *)
Inductive column :=
| col_status
| col_priority
| col_assigned_to
| col_resolution_notes
| col_closed_at
| col_updated_at.

Inductive expr :=
| Placeholder (n : nat)
| CURRENT_TIMESTAMP.

Global Instance column_eq_dec : EqDecision column.
Proof. solve_decision. Defined.

Global Instance expr_eq_dec : EqDecision expr.
Proof. solve_decision. Defined.

Record builder := Builder {
  fields : list (column * expr);
  values : list jsval;
  paramCount : nat
}.

Definition set_status (v : option string) (t : ticket) : ticket :=
  {| ticket_id := ticket_id t; client_id := client_id t; title := title t;
     description := description t; priority := priority t;
     category := category t; status := v; assigned_to := assigned_to t;
     resolution_notes := resolution_notes t; created_at := created_at t;
     updated_at := updated_at t; closed_at := closed_at t |}.

Definition set_priority (v : option string) (t : ticket) : ticket :=
  {| ticket_id := ticket_id t; client_id := client_id t; title := title t;
     description := description t; priority := v;
     category := category t; status := status t; assigned_to := assigned_to t;
     resolution_notes := resolution_notes t; created_at := created_at t;
     updated_at := updated_at t; closed_at := closed_at t |}.

Definition set_assigned_to (v : option Z) (t : ticket) : ticket :=
  {| ticket_id := ticket_id t; client_id := client_id t; title := title t;
     description := description t; priority := priority t;
     category := category t; status := status t; assigned_to := v;
     resolution_notes := resolution_notes t; created_at := created_at t;
     updated_at := updated_at t; closed_at := closed_at t |}.

Definition set_resolution_notes (v : option string) (t : ticket) : ticket :=
  {| ticket_id := ticket_id t; client_id := client_id t; title := title t;
     description := description t; priority := priority t;
     category := category t; status := status t; assigned_to := assigned_to t;
     resolution_notes := v; created_at := created_at t;
     updated_at := updated_at t; closed_at := closed_at t |}.

Definition set_closed_at (v : option Z) (t : ticket) : ticket :=
  {| ticket_id := ticket_id t; client_id := client_id t; title := title t;
     description := description t; priority := priority t;
     category := category t; status := status t; assigned_to := assigned_to t;
     resolution_notes := resolution_notes t; created_at := created_at t;
     updated_at := updated_at t; closed_at := v |}.

Definition set_updated_at (v : Z) (t : ticket) : ticket :=
  {| ticket_id := ticket_id t; client_id := client_id t; title := title t;
     description := description t; priority := priority t;
     category := category t; status := status t; assigned_to := assigned_to t;
     resolution_notes := resolution_notes t; created_at := created_at t;
     updated_at := v; closed_at := closed_at t |}.

(** [$n], counted from 1. *)
Definition bind_param (vs : list jsval) (n : nat) : option jsval :=
  match n with
  | O => None
  | S k => vs !! k
  end.

(** One assignment of the [SET] list, read against the bound values.  [None]
    is the server rejecting the statement: a value its column does not
    take, or a form the handler never builds. *)
Definition assign (vs : list jsval) (now : Z) (a : column * expr)
    : option (ticket → ticket) :=
  match a with
  | (col_status, Placeholder n) =>
      v ← bind_param vs n;
      if decide (accepts "tickets.status" (text_in v) = Stored)
      then Some (set_status (text_in v)) else None
  | (col_priority, Placeholder n) =>
      v ← bind_param vs n;
      if decide (accepts "tickets.priority" (text_in v) = Stored)
      then Some (set_priority (text_in v)) else None
  | (col_assigned_to, Placeholder n) =>
      v ← bind_param vs n; x ← int_in v; Some (set_assigned_to x)
  | (col_resolution_notes, Placeholder n) =>
      v ← bind_param vs n;
      if decide (accepts "tickets.resolution_notes" (text_in v) = Stored)
      then Some (set_resolution_notes (text_in v)) else None
  | (col_closed_at, CURRENT_TIMESTAMP) => Some (set_closed_at (Some now))
  | (col_updated_at, CURRENT_TIMESTAMP) => Some (set_updated_at now)
  | _ => None
  end.

(** [UPDATE tickets SET fields WHERE ticket_id = $k RETURNING *]: a single
    statement, so either every assignment is applied to every matching row
    or the store is left as it was. *)
Definition update_tickets (s : store) (fs : list (column * expr)) (k : nat)
    (vs : list jsval) (now : Z) : option (list ticket * store) :=
  sets ← mapM (assign vs now) fs;
  key ← bind_param vs k ≫= int_in;
  let upd t :=
    if decide (key = Some (ticket_id t)) then foldl (λ t f, f t) t sets else t in
  Some (upd <$> filter (λ t, key = Some (ticket_id t)) (tickets s),
        with_tickets s (upd <$> tickets s)).

(** ** Handlers *)

(** [POST /api/auth/register].  [hashedPassword] is what [bcrypt.hash]
    answers; it rejects a password that is not a string. *)
Definition post_auth_register (s : store) (b : gmap string jsval)
    (hashedPassword : string) : response * store :=
  let email := b !! "email" in
  let password := b !! "password" in
  let full_name := b !! "full_name" in
  let role := b !! "role" in
  match password with
  | Some (JStr _) =>
      match insert_user s (text_param email) hashedPassword
              (text_param full_name) (text_in (js_or role (JStr "client"))) with
      | (Row (User uid em _ name rl), s') =>
          (Json 201 (PUser uid em name rl), s')
      | (UniqueViolation, s') => (Json 409 (PError "Email already exists"), s')
      | (DbError, s') => (Json 500 PDbError, s')
      end
  | _ => (Json 500 PDbError, s)
  end.

(** [GET /api/tickets] *)
Definition get_tickets (s : store) (u : jwt_user) : response * store :=
  let query := select_tickets s in
  if bool_decide (role u = "client") then
    let rows :=
      merge_sort newest_first
        (filter (λ r, client_id (row_ticket r) = userId u) query) in
    (Json 200 (PTicketRows rows), s)
  else
    let rows := merge_sort newest_first query in
    (Json 200 (PTicketRows rows), s).

(** [GET /api/tickets/:id] *)
Definition get_ticket_by_id (s : store) (u : jwt_user) (id : string)
    : response * store :=
  match ticket_key id with
  | None => (Json 500 PDbError, s)
  | Some n =>
      match filter (λ r, ticket_id (row_ticket r) = n) (select_tickets s) with
      | [] => (Json 404 (PError "Ticket not found"), s)
      | row :: _ => (Json 200 (PTicketRow row), s)
      end
  end.

(** [POST /api/tickets] *)
Definition post_tickets (s : store) (u : jwt_user) (b : gmap string jsval)
    (now : Z) : response * store :=
  let title := b !! "title" in
  let description := b !! "description" in
  let priority := b !! "priority" in
  let category := b !! "category" in
  match insert_ticket s (userId u) (text_param title) (text_param description)
          (text_in (js_or priority (JStr "medium")))
          (text_in (js_or category (JStr "general"))) now with
  | (Row t, s') => (Json 201 (PTicket t), s')
  | (_, s') => (Json 500 PDbError, s')
  end.

(** [if (v !== undefined) { fields.push(`col = $${paramCount++}`);
    values.push(v); }] *)
Definition push (c : column) (v : option jsval) (q : builder) : builder :=
  match v with
  | Some x =>
      {| fields := fields q ++ [(c, Placeholder (paramCount q))];
         values := values q ++ [x];
         paramCount := S (paramCount q) |}
  | None => q
  end.

(** The statement [PUT /api/tickets/:id] assembles from the body and the
    route parameter; [paramCount] is the placeholder of the [WHERE] clause. *)
Definition build_update (b : gmap string jsval) (id : string) : builder :=
  let status := b !! "status" in
  let priority := b !! "priority" in
  let assigned_to := b !! "assigned_to" in
  let resolution_notes := b !! "resolution_notes" in
  let q := {| fields := []; values := []; paramCount := 1 |} in
  let q := push col_status status q in
  let q := push col_priority priority q in
  let q := push col_assigned_to assigned_to q in
  let q := push col_resolution_notes resolution_notes q in
  let fs :=
    if bool_decide (status = Some (JStr "closed"))
    then fields q ++ [(col_closed_at, CURRENT_TIMESTAMP)]
    else fields q in
  {| fields := fs ++ [(col_updated_at, CURRENT_TIMESTAMP)];
     values := values q ++ [JStr id];
     paramCount := paramCount q |}.

(** [PUT /api/tickets/:id] *)
Definition put_ticket (s : store) (u : jwt_user) (id : string)
    (b : gmap string jsval) (now : Z) : response * store :=
  let q := build_update b id in
  match update_tickets s (fields q) (paramCount q) (values q) now with
  | None => (Json 500 PDbError, s)
  | Some ([], s') => (Json 404 (PError "Ticket not found"), s')
  | Some (t :: _, s') => (Json 200 (PTicket t), s')
  end.

(** [GET /api/tickets/:id/comments] *)
Definition get_comments (s : store) (u : jwt_user) (id : string)
    : response * store :=
  match ticket_key id with
  | None => (Json 500 PDbError, s)
  | Some n =>
      let rows :=
        merge_sort oldest_first
          (filter (λ r, comment_ticket_id (row_comment r) = n)
             (select_comments s)) in
      (Json 200 (PCommentRows rows), s)
  end.

(** [POST /api/tickets/:id/comments] *)
Definition post_comments (s : store) (u : jwt_user) (id : string)
    (b : gmap string jsval) (now : Z) : response * store :=
  let comment_text := b !! "comment_text" in
  match ticket_key id with
  | None => (Json 500 PDbError, s)
  | Some n =>
      match insert_comment s n (userId u) (text_param comment_text) now with
      | (Row c, s') => (Json 201 (PComment c), s')
      | (_, s') => (Json 500 PDbError, s')
      end
  end.

(** [COUNT( * ) FILTER (WHERE status = v)] *)
Definition count_status (v : string) (ts : list ticket) : nat :=
  length (filter (λ t, status t = Some v) ts).

(** [GET /api/dashboard/stats] *)
Definition get_dashboard_stats (s : store) (u : jwt_user) : response * store :=
  let rows :=
    if bool_decide (role u = "client")
    then filter (λ t, client_id t = userId u) (tickets s)
    else tickets s in
  (Json 200 (PStats {| open_tickets := count_status "open" rows;
                       in_progress_tickets := count_status "in_progress" rows;
                       closed_tickets := count_status "closed" rows;
                       total_tickets := length rows |}), s).

(** ** The server as a transition system *)

Inductive request :=
| PostAuthRegister (b : gmap string jsval) (hashedPassword : string)
| GetTickets (c : credential)
| GetTicketById (c : credential) (id : string)
| PostTickets (c : credential) (b : gmap string jsval) (now : Z)
| PutTicket (c : credential) (id : string) (b : gmap string jsval) (now : Z)
| GetComments (c : credential) (id : string)
| PostComments (c : credential) (id : string) (b : gmap string jsval) (now : Z)
| GetDashboardStats (c : credential).

Definition handle (s : store) (r : request) : response * store :=
  match r with
  | PostAuthRegister b h => post_auth_register s b h
  | GetTickets c => authenticateToken c (get_tickets s) s
  | GetTicketById c id => authenticateToken c (λ u, get_ticket_by_id s u id) s
  | PostTickets c b now => authenticateToken c (λ u, post_tickets s u b now) s
  | PutTicket c id b now => authenticateToken c (λ u, put_ticket s u id b now) s
  | GetComments c id => authenticateToken c (λ u, get_comments s u id) s
  | PostComments c id b now =>
      authenticateToken c (λ u, post_comments s u id b now) s
  | GetDashboardStats c => authenticateToken c (get_dashboard_stats s) s
  end.

(** The store after a sequence of requests. *)
Definition run (s : store) (rs : list request) : store :=
  foldl (λ s r, (handle s r).2) s rs.

Definition reachable (s : store) : Prop := ∃ rs, s = run empty_store rs.

(** ** Store invariants and scopes *)

(** [user_id] is the key of [users]. *)
Definition users_keyed (s : store) : Prop := NoDup (user_id <$> users s).

Global Instance users_keyed_dec s : Decision (users_keyed s).
Proof. unfold users_keyed. apply _. Defined.

(** The tickets the caller's role and id select, in table order. *)
Definition scope (u : jwt_user) (ts : list ticket) : list ticket :=
  if bool_decide (role u = "client")
  then filter (λ t, client_id t = userId u) ts
  else ts.

(** ** The partial update (specification, section 4.4)

    The specification's reading of the update handler: each of the four
    mutable fields is either left as it is or set to a value, and a patch
    whose [status] is [closed] stamps [closedAt]. *)

Definition apply_change {A} (c : change A) (old : A) : A :=
  match c with
  | Keep => old
  | SetTo x => x
  end.

Record patch := Patch {
  p_status : change (option string);
  p_priority : change (option string);
  p_assigned_to : change (option Z);
  p_resolution_notes : change (option string);
  p_closing : bool
}.

Definition text_change (col : string) (v : option jsval)
    : option (change (option string)) :=
  match v with
  | None => Some Keep
  | Some x =>
      if decide (accepts col (text_in x) = Stored)
      then Some (SetTo (text_in x)) else None
  end.

Definition int_change (v : option jsval) : option (change (option Z)) :=
  match v with
  | None => Some Keep
  | Some x => SetTo <$> int_in x
  end.

(** The patch a body denotes; [None] when the database does not take one of
    its values. *)
Definition decode_patch (b : gmap string jsval) : option patch :=
  st ← text_change "tickets.status" (b !! "status");
  pr ← text_change "tickets.priority" (b !! "priority");
  a ← int_change (b !! "assigned_to");
  rn ← text_change "tickets.resolution_notes" (b !! "resolution_notes");
  Some {| p_status := st; p_priority := pr; p_assigned_to := a;
          p_resolution_notes := rn;
          p_closing := bool_decide (b !! "status" = Some (JStr "closed")) |}.

Definition apply_patch (p : patch) (now : Z) (t : ticket) : ticket :=
  {| ticket_id := ticket_id t;
     client_id := client_id t;
     title := title t;
     description := description t;
     priority := apply_change (p_priority p) (priority t);
     category := category t;
     status := apply_change (p_status p) (status t);
     assigned_to := apply_change (p_assigned_to p) (assigned_to t);
     resolution_notes := apply_change (p_resolution_notes p) (resolution_notes t);
     created_at := created_at t;
     updated_at := now;
     closed_at := if p_closing p then Some now else closed_at t |}.

(** [applyUpdate] of section 4.3: the patch applied to every row with the
    given id; the first of them is what the caller reads back. *)
Definition apply_update (s : store) (n : Z) (p : patch) (now : Z)
    : response * store :=
  let s' :=
    with_tickets s
      ((λ t, if decide (ticket_id t = n) then apply_patch p now t else t)
         <$> tickets s) in
  match filter (λ t, ticket_id t = n) (tickets s) with
  | [] => (Json 404 (PError "Ticket not found"), s')
  | t :: _ => (Json 200 (PTicket (apply_patch p now t)), s')
  end.

(** ** Outcomes the specification names *)

(** The request is turned down: an error status, and the tickets are what
    they were. *)
Definition rejected (out : response * store) (s : store) : Prop :=
  (400 ≤ code out.1)%nat ∧ tickets out.2 = tickets s.

(** [NotFound] *)
Definition not_found (out : response * store) : Prop := code out.1 = 404%nat.

(** The body names one of the four mutable fields. *)
Definition sets_field (b : gmap string jsval) : Prop :=
  is_Some (b !! "status") ∨ is_Some (b !! "priority")
  ∨ is_Some (b !! "assigned_to") ∨ is_Some (b !! "resolution_notes").

(** The request is an authenticated update of ticket [n] whose patch sets
    [status] to [closed]. *)
Definition closes (r : request) (n : Z) : Prop :=
  match r with
  | PutTicket (Token _) id b _ =>
      ticket_key id = Some n ∧ b !! "status" = Some (JStr "closed")
  | _ => False
  end.

(** Somewhere in the history [rs], ticket [n] existed and a request closed
    it: the request was answered 200. *)
Definition closed_before (rs : list request) (n : Z) : Prop :=
  ∃ rs1 r rs2,
    rs = rs1 ++ r :: rs2
    ∧ closes r n
    ∧ code (handle (run empty_store rs1) r).1 = 200%nat
    ∧ ∃ t0, t0 ∈ tickets (run empty_store rs1) ∧ ticket_id t0 = n.

(** ** Routes outside the transition system

    [POST /api/auth/login] and [GET /api/consultants] only read the store.
    Their answers have shapes of their own. *)

(** [authenticateToken] in front of a route that only reads. *)
Definition authenticated {A} (c : credential) (next : jwt_user → reply A)
    : reply A :=
  match c with
  | NoToken => Refused 401 "Access denied"
  | BadToken => Refused 403 "Invalid token"
  | Token u => next u
  end.

(** The object [jwt.sign] signs at login. *)
Record jwt_payload := JwtPayload {
  payload_userId : Z;
  payload_email : option string;
  payload_role : option string
}.

(** [{ token, user: { user_id, email, full_name, role } }] *)
Record login_body := LoginBody {
  token : jwt_payload;
  login_user_id : Z;
  login_email : option string;
  login_full_name : option string;
  login_role : option string
}.

(** [SELECT * FROM users WHERE email = $1]; NULL equals nothing. *)
Definition users_by_email (s : store) (em : option string) : list user :=
  match em with
  | None => []
  | Some e => filter (λ u, email u = Some e) (users s)
  end.

(** [POST /api/auth/login].  [compare] is [bcrypt.compare], which rejects a
    password that is not a string. *)
Definition post_auth_login (s : store) (b : gmap string jsval)
    (compare : string → string → bool) : reply login_body :=
  let password := b !! "password" in
  match users_by_email s (text_param (b !! "email")) with
  | [] => Refused 401 "Invalid credentials"
  | User uid em hash name rl :: _ =>
      match password with
      | Some (JStr pw) =>
          if compare pw hash
          then Sent 200 {| token := JwtPayload uid em rl; login_user_id := uid;
                           login_email := em; login_full_name := name;
                           login_role := rl |}
          else Refused 401 "Invalid credentials"
      | _ => Failed
      end
  end.

(** [GET /api/consultants]:
    [SELECT user_id, full_name, email FROM users
     WHERE role IN ('consultant', 'admin')] *)
Definition get_consultants (s : store) (u : jwt_user)
    : reply (list (Z * option string * option string)) :=
  Sent 200
    ((λ u, (user_id u, full_name u, email u))
       <$> filter (λ u, user_role u = Some "consultant"
                        ∨ user_role u = Some "admin") (users s)).

(** ** Vocabulary of the further properties *)

(** The [GET] routes. *)
Definition read_only (r : request) : bool :=
  match r with
  | GetTickets _ | GetTicketById _ _ | GetComments _ _ | GetDashboardStats _ =>
      true
  | _ => false
  end.

(** The columns no handler assigns after the insertion. *)
Definition immutable_part (t : ticket)
    : Z * Z * option string * option string * option string * Z :=
  (ticket_id t, client_id t, title t, description t, category t, created_at t).

(** Every key in use is below the next value of its sequence. *)
Definition keys_fresh (s : store) : Prop :=
  Forall (λ k, k < next_user_id s) (user_id <$> users s)
  ∧ Forall (λ k, k < next_ticket_id s) (ticket_id <$> tickets s).

(** No two users share an email that is not NULL. *)
Definition emails_unique (s : store) : Prop :=
  NoDup (omap email (users s)).

(** The placeholder of an assignment is bound, and is not the one of the
    [WHERE] clause. *)
Definition placeholder_bound (q : builder) (a : column * expr) : Prop :=
  match a.2 with
  | Placeholder n =>
      (1 ≤ n < paramCount q)%nat ∧ is_Some (bind_param (values q) n)
  | CURRENT_TIMESTAMP => True
  end.

(** The database takes the values the create handler binds. *)
Definition create_taken (b : gmap string jsval) : Prop :=
  verdicts [accepts "tickets.title" (text_param (b !! "title"));
            accepts "tickets.description" (text_param (b !! "description"));
            accepts "tickets.priority"
              (text_in (js_or (b !! "priority") (JStr "medium")));
            accepts "tickets.category"
              (text_in (js_or (b !! "category") (JStr "general")))]
  = Stored.

(** The database takes the values the register handler binds. *)
Definition register_taken (b : gmap string jsval) : Prop :=
  verdicts [accepts "users.email" (text_param (b !! "email"));
            accepts "users.full_name" (text_param (b !! "full_name"));
            accepts "users.role"
              (text_in (js_or (b !! "role") (JStr "client")))]
  = Stored.

(** The database takes the text the comment handler binds. *)
Definition comment_taken (b : gmap string jsval) : Prop :=
  accepts "comments.comment_text" (text_param (b !! "comment_text")) = Stored.

End Server.

(** ** A database for the examples

    One instance of [database], used to evaluate the handlers on concrete
    requests: integers are read from plain decimal text within the range
    of four bytes, numbers are sent in decimal, and a column takes every
    text without a zero byte.  The theorems hold for every instance. *)

Definition decimal_int4 (s : string) : option Z :=
  n ← Z.of_int <$> NilZero.int_of_string s;
  if decide (-2147483648 ≤ n ≤ 2147483647) then Some n else None.

Definition plain_text (col : string) (v : option string) : verdict :=
  match v with
  | Some s => if occurs Ascii.zero s then Invalid else Stored
  | None => Stored
  end.

Global Instance sample_db : database.
Proof.
  refine {| int4_in := decimal_int4; number_text := pretty;
            accepts := plain_text |}.
  assert (∀ x s, numeric s = true → numeric (pretty_N_go x s) = true) as Hgo.
  { intros x. induction (N.lt_wf_0 x) as [x _ IH]. intros s Hs.
    destruct (decide (x = 0)%N) as [->|Hx]; [by rewrite pretty_N_go_0|].
    rewrite pretty_N_go_step by lia. apply IH; [apply N.div_lt; lia|].
    simpl. rewrite Hs, andb_true_r.
    unfold pretty_N_char. by repeat case_match. }
  intros [|p|p]; [done| |].
  - by apply (Hgo (Npos p) "").
  - change (numeric ("-" +:+ pretty_N_go (Npos p) "") = true).
    simpl. by apply (Hgo (Npos p) "").
Defined.

(** ** Sample data

    Two clients and a consultant register; each client opens a ticket and
    the consultant closes the second one. *)

Definition alice : jwt_user := JwtUser 1 "alice@example.com" "client".
Definition bob : jwt_user := JwtUser 2 "bob@example.com" "client".
Definition carol : jwt_user := JwtUser 3 "carol@example.com" "consultant".

Definition sample_trace : list request :=
  [ PostAuthRegister {[ "email" := JStr "alice@example.com";
                        "password" := JStr "a"; "full_name" := JStr "Alice" ]}
      "$2b$10$alice";
    PostAuthRegister {[ "email" := JStr "bob@example.com";
                        "password" := JStr "b"; "full_name" := JStr "Bob" ]}
      "$2b$10$bob";
    PostAuthRegister {[ "email" := JStr "carol@example.com";
                        "password" := JStr "c"; "full_name" := JStr "Carol";
                        "role" := JStr "consultant" ]}
      "$2b$10$carol";
    PostTickets (Token alice)
      {[ "title" := JStr "VPN down"; "description" := JStr "No route" ]} 5;
    PostTickets (Token bob)
      {[ "title" := JStr "New laptop"; "description" := JStr "Please";
         "priority" := JStr "low" ]} 6;
    PutTicket (Token carol) "2"
      {[ "status" := JStr "closed"; "assigned_to" := JNum 3 ]} 9 ].

Definition sample_store : store := Eval vm_compute in run empty_store sample_trace.

Definition vpn_ticket : ticket :=
  {| ticket_id := 1; client_id := 1; title := Some "VPN down";
     description := Some "No route"; priority := Some "medium";
     category := Some "general"; status := Some "open"; assigned_to := None;
     resolution_notes := None; created_at := 5; updated_at := 5;
     closed_at := None |}.

Definition laptop_ticket : ticket :=
  {| ticket_id := 2; client_id := 2; title := Some "New laptop";
     description := Some "Please"; priority := Some "low";
     category := Some "general"; status := Some "closed";
     assigned_to := Some 3; resolution_notes := None; created_at := 6;
     updated_at := 9; closed_at := Some 9 |}.

(** [{ "status": "closed" }] and the patch it denotes. *)
Definition close_body : gmap string jsval := {[ "status" := JStr "closed" ]}.

Definition close_patch : patch :=
  {| p_status := SetTo (Some "closed"); p_priority := Keep;
     p_assigned_to := Keep; p_resolution_notes := Keep; p_closing := true |}.

(** [{ "priority": "high" }] *)
Definition priority_body : gmap string jsval := {[ "priority" := JStr "high" ]}.

(** [{ "title": "", "description": "No route" }] *)
Definition untitled_body : gmap string jsval :=
  {[ "title" := JStr ""; "description" := JStr "No route" ]}.

(** ** Further sample data *)

(** A registration that names no role. *)
Definition dave_body : gmap string jsval :=
  {[ "email" := JStr "dave@example.com"; "password" := JStr "d" ]}.

Global Instance user_eq_dec : EqDecision user.
Proof. solve_decision. Defined.

Global Instance comment_eq_dec : EqDecision comment.
Proof. solve_decision. Defined.

(** A second registration under alice's email. *)
Definition alice_again_body : gmap string jsval :=
  {[ "email" := JStr "alice@example.com"; "password" := JStr "x";
     "role" := JStr "admin" ]}.

Definition alice_row : user :=
  {| user_id := 1; email := Some "alice@example.com";
     password_hash := "$2b$10$alice"; full_name := Some "Alice";
     user_role := Some "client" |}.

(** [{ "status": "closed", "assigned_to": "carol" }] *)
Definition misassigned_body : gmap string jsval :=
  {[ "status" := JStr "closed"; "assigned_to" := JStr "carol" ]}.

(** A body that names nothing the update handler reads. *)
Definition title_body : gmap string jsval := {[ "title" := JStr "Renamed" ]}.

(** [{ "comment_text": "Rebooted the gateway" }] *)
Definition comment_body : gmap string jsval :=
  {[ "comment_text" := JStr "Rebooted the gateway" ]}.

Definition carol_row : user :=
  {| user_id := 3; email := Some "carol@example.com";
     password_hash := "$2b$10$carol"; full_name := Some "Carol";
     user_role := Some "consultant" |}.

(** Alice's email with a password, and a check that accepts the password
    ["a"] only. *)
Definition alice_login_body (pw : string) : gmap string jsval :=
  {[ "email" := JStr "alice@example.com"; "password" := JStr pw ]}.

Definition accepts_a (pw hash : string) : bool := String.eqb pw "a".

(** A check that accepts when the hash is dave's. *)
Definition accepts_dave (pw hash : string) : bool :=
  String.eqb pw "d" && String.eqb hash "$2b$10$dave".

(** * Properties *)

(** ** Joins against a keyed [users] table *)

Lemma filter_key_unique (us : list user) (key : option Z) :
  NoDup (user_id <$> us) →
  (length (filter (λ u, key = Some (user_id u)) us) ≤ 1)%nat.
Proof.
  induction us as [|u us IH]; intros Hnd; [simpl; lia|].
  rewrite fmap_cons in Hnd. apply NoDup_cons in Hnd as [Hfresh Hnd].
  rewrite filter_cons. destruct (decide (key = Some (user_id u))) as [->|_].
  - assert (filter (λ u0, Some (user_id u) = Some (user_id u0)) us = []) as ->.
    { destruct (filter _ us) as [|v vs] eqn:E; [done|]. exfalso.
      assert (v ∈ filter (λ u0, Some (user_id u) = Some (user_id u0)) us) as Hv
        by (rewrite E; left).
      apply list_elem_of_filter in Hv as [Hk Hin]. apply Hfresh.
      injection Hk as ->. by apply list_elem_of_fmap_2. }
    simpl. lia.
  - by apply IH.
Qed.

Lemma joined_name_keyed (us : list user) (key : option Z) :
  NoDup (user_id <$> us) → ∃ n, joined_name us key = [n].
Proof.
  intros Hnd. pose proof (filter_key_unique us key Hnd) as Hlen.
  unfold joined_name.
  destruct (filter _ us) as [|u [|v m]]; simpl in *; [eauto | eauto | lia].
Qed.

Lemma select_tickets_keyed (s : store) :
  users_keyed s → row_ticket <$> select_tickets s = tickets s.
Proof.
  intros Hk. unfold select_tickets.
  induction (tickets s) as [|t ts IH]; [done|].
  rewrite bind_cons, fmap_app, IH.
  destruct (joined_name_keyed (users s) (Some (client_id t)) Hk) as [cn ->].
  destruct (joined_name_keyed (users s) (assigned_to t) Hk) as [an ->].
  done.
Qed.

Lemma select_comments_keyed (s : store) :
  users_keyed s → row_comment <$> select_comments s = comments s.
Proof.
  intros Hk. unfold select_comments.
  induction (comments s) as [|c cs IH]; [done|].
  rewrite bind_cons, fmap_app, IH.
  by destruct (joined_name_keyed (users s) (Some (comment_user_id c)) Hk) as [n ->].
Qed.

(** A [WHERE] clause on the columns of the joined table selects the rows of
    the table that satisfy it. *)
Lemma filter_fmap_comm {A B} (f : A → B) (P : B → Prop)
    `{∀ y, Decision (P y)} (l : list A) :
  f <$> filter (λ x, P (f x)) l = filter P (f <$> l).
Proof.
  induction l as [|x l IH]; [done|].
  rewrite fmap_cons, !filter_cons.
  destruct (decide (P (f x))); rewrite ?fmap_cons, IH; done.
Qed.

(** ** Scoped listing and the dashboard *)

Lemma get_tickets_scope (s : store) (u : jwt_user) :
  users_keyed s →
  ∃ rows, get_tickets s u = (Json 200 (PTicketRows rows), s)
          ∧ row_ticket <$> rows ≡ₚ scope u (tickets s).
Proof.
  intros Hk. unfold get_tickets, scope. case_bool_decide.
  - eexists; split; [done|]. rewrite merge_sort_Permutation.
    rewrite <- (select_tickets_keyed s Hk).
    by rewrite <- filter_fmap_comm.
  - eexists; split; [done|]. rewrite merge_sort_Permutation.
    by rewrite select_tickets_keyed.
Qed.

Global Instance newest_first_total : Total newest_first.
Proof. intros r1 r2. unfold newest_first. lia. Qed.

(** The listing is ordered by [created_at], most recent first. *)
Lemma get_tickets_sorted (s : store) (u : jwt_user) :
  ∃ rows, get_tickets s u = (Json 200 (PTicketRows rows), s)
          ∧ Sorted newest_first rows.
Proof.
  unfold get_tickets. case_bool_decide; eexists; (split; [done|]);
    apply (Sorted_merge_sort newest_first).
Qed.

Lemma count_status_perm (v : string) (l k : list ticket) :
  l ≡ₚ k → count_status v l = count_status v k.
Proof. intros Hp. unfold count_status. by rewrite Hp. Qed.

Lemma update_tickets_hit `{!database} s fs k vs now sets n :
  mapM (assign vs now) fs = Some sets →
  bind_param vs k ≫= int_in = Some (Some n) →
  update_tickets s fs k vs now =
    Some ((λ t, foldl (λ t f, f t) t sets)
            <$> filter (λ t, ticket_id t = n) (tickets s),
          with_tickets s
            ((λ t, if decide (ticket_id t = n)
                   then foldl (λ t f, f t) t sets else t) <$> tickets s)).
Proof.
  intros Hsets Hkey. unfold update_tickets. rewrite Hsets, Hkey. simpl.
  f_equal. f_equal.
  - induction (tickets s) as [|t ts IH]; [done|].
    rewrite !filter_cons.
    destruct (decide (Some n = Some (ticket_id t))) as [E|E],
      (decide (ticket_id t = n)) as [E'|E']; try congruence.
    rewrite !fmap_cons, IH. by rewrite decide_True.
  - f_equal. apply list_fmap_ext. intros _ t _.
    destruct (decide (Some n = Some (ticket_id t))),
      (decide (ticket_id t = n)); congruence.
Qed.

Lemma update_tickets_rejected_key `{!database} s fs k vs now :
  bind_param vs k ≫= int_in = None → update_tickets s fs k vs now = None.
Proof.
  intros Hkey. unfold update_tickets. rewrite Hkey.
  by destruct (mapM _ fs).
Qed.
Ltac split_verdicts :=
  repeat match goal with
         | |- context [accepts ?c ?x] => destruct (accepts c x) eqn:?
         end.

Ltac use_verdicts :=
  repeat match goal with
         | H : accepts ?c ?x = _ |- context [accepts ?c ?x] => rewrite H
         end.

Theorem put_ticket_spec `{!database} (s : store) (u : jwt_user) (id : string)
    (b : gmap string jsval) (now : Z) :
  put_ticket s u id b now =
    match decode_patch b, ticket_key id with
    | Some p, Some n => apply_update s n p now
    | _, _ => (Json 500 PDbError, s)
    end.
Proof.
  unfold put_ticket, build_update, decode_patch, apply_update, text_change,
    int_change.
  destruct (ticket_key id) as [n|] eqn:Hn; unfold ticket_key in Hn.
  2: { rewrite update_tickets_rejected_key.
       - by destruct (_ ≫= _).
       - destruct (b !! "status"), (b !! "priority"), (b !! "assigned_to"),
           (b !! "resolution_notes"); simpl; unfold int_in, ticket_key;
           simpl; by rewrite Hn. }
  destruct (b !! "status") as [v1|], (b !! "priority") as [v2|],
    (b !! "assigned_to") as [v3|], (b !! "resolution_notes") as [v4|];
    simpl; try case_bool_decide; simpl; split_verdicts; simpl;
    try (destruct (int_in v3) as [a|] eqn:Ha; simpl);
    first
      [ (erewrite update_tickets_hit;
           [| simpl; use_verdicts; simpl; rewrite ?Ha; reflexivity
            | simpl; unfold int_in, ticket_key; simpl; rewrite Hn;
              reflexivity]);
        destruct (filter _ (tickets s)); reflexivity
      | unfold update_tickets; simpl; use_verdicts; simpl; rewrite ?Ha;
        simpl; use_verdicts; reflexivity ].
Qed.
(** C1. The listing is scoped by role: a caller whose role is not client
    receives every ticket of the store, a client with user id [u] receives
    exactly the tickets whose [client_id] is [u] (each ticket once, whenever
    [user_id] is the key of [users]). *)
Theorem list_scoped_by_role `{!database} (s : store) (u : jwt_user) :
  users_keyed s →
  ∃ rows,
    handle s (GetTickets (Token u)) = (Json 200 (PTicketRows rows), s)
    ∧ (role u ≠ "client" → row_ticket <$> rows ≡ₚ tickets s)
    ∧ (role u = "client" →
       row_ticket <$> rows ≡ₚ filter (λ t, client_id t = userId u) (tickets s)).
Proof.
  intros Hk. destruct (get_tickets_scope s u Hk) as (rows & Hrows & Hperm).
  exists rows. split; [exact Hrows|].
  unfold scope in Hperm. split; intros Hr.
  - by rewrite bool_decide_eq_false_2 in Hperm.
  - by rewrite bool_decide_eq_true_2 in Hperm.
Qed.

Lemma list_scoped_by_role_witness :
  users_keyed sample_store ∧
  ∃ rows,
    handle sample_store (GetTickets (Token bob))
      = (Json 200 (PTicketRows rows), sample_store)
    ∧ (role bob ≠ "client" → row_ticket <$> rows ≡ₚ tickets sample_store)
    ∧ (role bob = "client" →
       row_ticket <$> rows
         ≡ₚ filter (λ t, client_id t = userId bob) (tickets sample_store)).
Proof.
  split; [compute_done|].
  apply (list_scoped_by_role sample_store bob). 

  compute_done.
Defined.

(** C4. For every caller, the four counts of the dashboard are the
    cardinalities of what the listing returns to the same caller: the listed
    tickets with status open, in_progress and closed, and the whole list. *)
Theorem stats_match_listing `{!database} (s : store) (u : jwt_user) :
  users_keyed s →
  ∃ rows st,
    handle s (GetTickets (Token u)) = (Json 200 (PTicketRows rows), s)
    ∧ handle s (GetDashboardStats (Token u)) = (Json 200 (PStats st), s)
    ∧ open_tickets st
        = length (filter (λ r, status (row_ticket r) = Some "open") rows)
    ∧ in_progress_tickets st
        = length (filter (λ r, status (row_ticket r) = Some "in_progress") rows)
    ∧ closed_tickets st
        = length (filter (λ r, status (row_ticket r) = Some "closed") rows)
    ∧ total_tickets st = length rows.
Proof.
  intros Hk. destruct (get_tickets_scope s u Hk) as (rows & Hrows & Hperm).
  exists rows. eexists. split; [exact Hrows|]. split; [reflexivity|].
  assert (∀ v, count_status v (scope u (tickets s))
               = length (filter (λ r, status (row_ticket r) = Some v) rows))
    as Hcount.
  { intros v. rewrite <- (count_status_perm v _ _ Hperm). unfold count_status.
    rewrite <- (filter_fmap_comm row_ticket (λ t, status t = Some v)).
    apply length_fmap. }
  simpl. fold (scope u (tickets s)). rewrite !Hcount.
  repeat split. by rewrite <- Hperm, length_fmap.
Qed.

Lemma stats_match_listing_witness :
  users_keyed sample_store ∧
  ∃ rows st,
    handle sample_store (GetTickets (Token carol))
      = (Json 200 (PTicketRows rows), sample_store)
    ∧ handle sample_store (GetDashboardStats (Token carol))
      = (Json 200 (PStats st), sample_store)
    ∧ open_tickets st
        = length (filter (λ r, status (row_ticket r) = Some "open") rows)
    ∧ in_progress_tickets st
        = length (filter (λ r, status (row_ticket r) = Some "in_progress") rows)
    ∧ closed_tickets st
        = length (filter (λ r, status (row_ticket r) = Some "closed") rows)
    ∧ total_tickets st = length rows.
Proof.
  split; [compute_done|].
  apply (stats_match_listing sample_store carol). compute_done.
Defined.

(** ** The update handler *)

Lemma handle_put_ticket `{!database} s u id b now n p :
  ticket_key id = Some n → decode_patch b = Some p →
  handle s (PutTicket (Token u) id b now) = apply_update s n p now.
Proof. intros Hn Hp. simpl. by rewrite put_ticket_spec, Hp, Hn. Qed.

Lemma apply_update_found s n p now t :
  t ∈ tickets s → ticket_id t = n →
  ∃ t0, t0 ∈ tickets s ∧ ticket_id t0 = n
        ∧ apply_update s n p now =
            (Json 200 (PTicket (apply_patch p now t0)),
             with_tickets s
               ((λ t, if decide (ticket_id t = n) then apply_patch p now t else t)
                  <$> tickets s)).
Proof.
  intros Hin Hid. unfold apply_update.
  destruct (filter (λ t, ticket_id t = n) (tickets s)) as [|t0 l] eqn:E.
  - exfalso. by apply (filter_nil_not_elem_of _ _ t E Hid).
  - exists t0. assert (t0 ∈ filter (λ t, ticket_id t = n) (tickets s)) as H0
      by (rewrite E; left).
    apply list_elem_of_filter in H0 as [? ?]. done.
Qed.

Lemma tickets_apply_update s n p now :
  tickets (apply_update s n p now).2 =
    (λ t, if decide (ticket_id t = n) then apply_patch p now t else t)
      <$> tickets s.
Proof. unfold apply_update. by destruct (filter _ (tickets s)). Qed.

(** C2, as the handler has it.  An update by a client that sets any of
    status, priority, assigned_to or resolution_notes on an existing ticket
    is applied: the handler does not look at the caller's role, the response
    is 200 and every ticket with that id takes the patch. *)
Theorem client_update_applied `{!database} (s : store) (u : jwt_user) (id : string)
    (b : gmap string jsval) (now n : Z) (p : patch) (t : ticket) :
  role u = "client" →
  sets_field b →
  ticket_key id = Some n →
  decode_patch b = Some p →
  t ∈ tickets s → ticket_id t = n →
  ∃ t0, t0 ∈ tickets s ∧ ticket_id t0 = n
    ∧ handle s (PutTicket (Token u) id b now) =
        (Json 200 (PTicket (apply_patch p now t0)),
         with_tickets s
           ((λ t, if decide (ticket_id t = n) then apply_patch p now t else t)
              <$> tickets s)).
Proof.
  intros _ _ Hn Hp Hin Hid. rewrite (handle_put_ticket _ _ _ _ _ n p Hn Hp).
  by apply (apply_update_found s n p now t).
Qed.

Lemma client_update_applied_witness :
  (role bob = "client" ∧ sets_field close_body ∧ ticket_key "1" = Some 1
   ∧ decode_patch close_body = Some close_patch
   ∧ vpn_ticket ∈ tickets sample_store ∧ ticket_id vpn_ticket = 1)
  ∧ ∃ t0, t0 ∈ tickets sample_store ∧ ticket_id t0 = 1
    ∧ handle sample_store (PutTicket (Token bob) "1" close_body 12) =
        (Json 200 (PTicket (apply_patch close_patch 12 t0)),
         with_tickets sample_store
           ((λ t, if decide (ticket_id t = 1)
                  then apply_patch close_patch 12 t else t)
              <$> tickets sample_store)).
Proof.
  assert (sets_field close_body) as Hset by (left; by eexists).
  split.
  - repeat split; first [exact Hset | reflexivity | compute_done].
  - apply (client_update_applied sample_store bob "1" close_body 12 1
             close_patch vpn_ticket);
      first [exact Hset | reflexivity | compute_done].
Defined.

(** C2 as stated fails: bob, a client, closes alice's ticket, and the handler
    answers 200 with the ticket closed. *)
Lemma client_update_not_refused :
  role bob = "client" ∧ sets_field close_body
  ∧ handle sample_store (PutTicket (Token bob) "1" close_body 12)
    = (Json 200 (PTicket (apply_patch close_patch 12 vpn_ticket)),
       with_tickets sample_store
         [apply_patch close_patch 12 vpn_ticket; laptop_ticket])
  ∧ ¬ rejected (handle sample_store (PutTicket (Token bob) "1" close_body 12))
        sample_store.
Proof.
  split; [reflexivity|]. split; [left; by eexists|]. split; [reflexivity|].
  intros [Hcode _]. vm_compute in Hcode. lia.
Qed.

Lemma decode_patch_fields `{!database} b p :
  decode_patch b = Some p →
  text_change "tickets.status" (b !! "status") = Some (p_status p)
  ∧ text_change "tickets.priority" (b !! "priority") = Some (p_priority p)
  ∧ int_change (b !! "assigned_to") = Some (p_assigned_to p)
  ∧ text_change "tickets.resolution_notes" (b !! "resolution_notes")
    = Some (p_resolution_notes p)
  ∧ p_closing p = bool_decide (b !! "status" = Some (JStr "closed")).
Proof.
  unfold decode_patch.
  destruct (text_change "tickets.status" _), (text_change "tickets.priority" _),
    (int_change _), (text_change "tickets.resolution_notes" _);
    intros; by simplify_eq/=.
Qed.

Lemma decode_patch_closing `{!database} b p :
  b !! "status" = Some (JStr "closed") → decode_patch b = Some p →
  p_closing p = true ∧ p_status p = SetTo (Some "closed").
Proof.
  intros Hst Hp. apply decode_patch_fields in Hp as (Hs & _ & _ & _ & Hc).
  rewrite Hst in Hs, Hc. split; [done|].
  unfold text_change in Hs. simpl in Hs. case_decide; by simplify_eq.
Qed.

Lemma build_update_closing b id :
  b !! "status" = Some (JStr "closed") →
  (col_closed_at, CURRENT_TIMESTAMP) ∈ fields (build_update b id).
Proof.
  intros Hst. unfold build_update. rewrite Hst. simpl.
  apply elem_of_app. left. apply elem_of_app. right. left.
Qed.

(** C5. An update whose patch has [status] equal to [closed] carries
    [closed_at = CURRENT_TIMESTAMP] in its mutation set, whatever the ticket
    was before: once the statement runs, every ticket with that id has
    status closed and [closed_at] equal to the time of this request, also
    when it was closed already. *)
Theorem closing_stamps_closed_at `{!database} (s : store) (u : jwt_user) (id : string)
    (b : gmap string jsval) (now n : Z) (t : ticket) :
  b !! "status" = Some (JStr "closed") →
  ticket_key id = Some n →
  is_Some (decode_patch b) →
  t ∈ tickets s → ticket_id t = n →
  (col_closed_at, CURRENT_TIMESTAMP) ∈ fields (build_update b id)
  ∧ code (handle s (PutTicket (Token u) id b now)).1 = 200%nat
  ∧ (∃ t', t' ∈ tickets (handle s (PutTicket (Token u) id b now)).2
           ∧ ticket_id t' = n ∧ client_id t' = client_id t
           ∧ created_at t' = created_at t ∧ closed_at t' = Some now)
  ∧ (∀ t', t' ∈ tickets (handle s (PutTicket (Token u) id b now)).2 →
           ticket_id t' = n →
           status t' = Some "closed" ∧ closed_at t' = Some now).
Proof.
  intros Hst Hn [p Hp] Hin Hid.
  destruct (decode_patch_closing b p Hst Hp) as [Hclosing Hstatus].
  split; [by apply build_update_closing|].
  rewrite (handle_put_ticket _ _ _ _ _ n p Hn Hp).
  split; [|split].
  - by destruct (apply_update_found s n p now t Hin Hid) as (t0 & _ & _ & ->).
  - exists (apply_patch p now t). rewrite tickets_apply_update.
    split; [|by simpl; rewrite Hclosing].
    apply list_elem_of_fmap. exists t. by rewrite decide_True.
  - intros t' Hin' Hid'. rewrite tickets_apply_update in Hin'.
    apply list_elem_of_fmap in Hin' as (t0 & -> & _).
    destruct (decide (ticket_id t0 = n)); [|done].
    simpl. by rewrite Hclosing, Hstatus.
Qed.

Lemma closing_stamps_closed_at_witness :
  (close_body !! "status" = Some (JStr "closed")
   ∧ ticket_key "2" = Some 2
   ∧ is_Some (decode_patch close_body)
   ∧ laptop_ticket ∈ tickets sample_store ∧ ticket_id laptop_ticket = 2)
  ∧ (col_closed_at, CURRENT_TIMESTAMP) ∈ fields (build_update close_body "2")
  ∧ code (handle sample_store (PutTicket (Token carol) "2" close_body 12)).1
      = 200%nat
  ∧ (∃ t', t' ∈ tickets
             (handle sample_store (PutTicket (Token carol) "2" close_body 12)).2
           ∧ ticket_id t' = 2 ∧ client_id t' = client_id laptop_ticket
           ∧ created_at t' = created_at laptop_ticket
           ∧ closed_at t' = Some 12)
  ∧ (∀ t', t' ∈ tickets
             (handle sample_store (PutTicket (Token carol) "2" close_body 12)).2 →
           ticket_id t' = 2 →
           status t' = Some "closed" ∧ closed_at t' = Some 12).
Proof.
  assert (is_Some (decode_patch close_body)) as Hp by (by eexists).
  split.
  - repeat split; first [exact Hp | reflexivity | compute_done].
  - apply (closing_stamps_closed_at sample_store carol "2" close_body 12 2
             laptop_ticket);
      first [exact Hp | reflexivity | compute_done].
Defined.

(** The ticket of the witness was closed at 9 and is stamped again at 12. *)
Example reclosing_restamps :
  closed_at laptop_ticket = Some 9
  ∧ tickets (handle sample_store (PutTicket (Token carol) "2" close_body 12)).2
    = [vpn_ticket; set_updated_at 12 (set_closed_at (Some 12) laptop_ticket)].
Proof. split; reflexivity. Qed.

(** C7. A patch that names only [priority], with a value the column takes,
    changes [priority] and [updated_at] of the ticket and nothing else:
    status, assigned_to, resolution_notes and every other column keep their
    values, the other tickets and tables are untouched. *)
Theorem priority_only_patch `{!database} (s : store) (u : jwt_user) (id : string)
    (b : gmap string jsval) (v : jsval) (now n : Z) (t : ticket) :
  b !! "priority" = Some v →
  accepts "tickets.priority" (text_in v) = Stored →
  b !! "status" = None →
  b !! "assigned_to" = None →
  b !! "resolution_notes" = None →
  ticket_key id = Some n →
  t ∈ tickets s → ticket_id t = n →
  let touch t :=
    {| ticket_id := ticket_id t; client_id := client_id t; title := title t;
       description := description t; priority := text_in v;
       category := category t; status := status t;
       assigned_to := assigned_to t; resolution_notes := resolution_notes t;
       created_at := created_at t; updated_at := now;
       closed_at := closed_at t |} in
  ∃ t0, t0 ∈ tickets s ∧ ticket_id t0 = n
    ∧ handle s (PutTicket (Token u) id b now) =
        (Json 200 (PTicket (touch t0)),
         {| users := users s;
            tickets := (λ t, if decide (ticket_id t = n) then touch t else t)
                         <$> tickets s;
            comments := comments s; next_user_id := next_user_id s;
            next_ticket_id := next_ticket_id s;
            next_comment_id := next_comment_id s |}).
Proof.
  intros Hprio Hok Hst Hass Hres Hn Hin Hid touch.
  set (p := {| p_status := Keep; p_priority := SetTo (text_in v);
               p_assigned_to := Keep; p_resolution_notes := Keep;
               p_closing := false |}).
  assert (decode_patch b = Some p) as Hp.
  { unfold decode_patch, text_change. rewrite Hprio, Hst, Hass, Hres. simpl.
    by rewrite decide_True. }
  rewrite (handle_put_ticket _ _ _ _ _ n p Hn Hp).
  destruct (apply_update_found s n p now t Hin Hid) as (t0 & Hin0 & Hid0 & ->).
  by exists t0.
Qed.

Lemma priority_only_patch_witness :
  (priority_body !! "priority" = Some (JStr "high")
   ∧ accepts "tickets.priority" (text_in (JStr "high")) = Stored
   ∧ priority_body !! "status" = None
   ∧ priority_body !! "assigned_to" = None
   ∧ priority_body !! "resolution_notes" = None
   ∧ ticket_key "2" = Some 2
   ∧ laptop_ticket ∈ tickets sample_store ∧ ticket_id laptop_ticket = 2)
  ∧ let touch t :=
      {| ticket_id := ticket_id t; client_id := client_id t; title := title t;
         description := description t; priority := text_in (JStr "high");
         category := category t; status := status t;
         assigned_to := assigned_to t; resolution_notes := resolution_notes t;
         created_at := created_at t; updated_at := 12;
         closed_at := closed_at t |} in
    ∃ t0, t0 ∈ tickets sample_store ∧ ticket_id t0 = 2
      ∧ handle sample_store (PutTicket (Token carol) "2" priority_body 12) =
          (Json 200 (PTicket (touch t0)),
           {| users := users sample_store;
              tickets := (λ t, if decide (ticket_id t = 2) then touch t else t)
                           <$> tickets sample_store;
              comments := comments sample_store;
              next_user_id := next_user_id sample_store;
              next_ticket_id := next_ticket_id sample_store;
              next_comment_id := next_comment_id sample_store |}).
Proof.
  split.
  - repeat split; first [reflexivity | compute_done].
  - apply (priority_only_patch sample_store carol "2" priority_body
             (JStr "high") 12 2 laptop_ticket);
      first [reflexivity | compute_done].
Defined.

(** The same update, evaluated: the closed ticket keeps its status, its
    assignee and its closing time. *)
Example priority_only_patch_sample :
  handle sample_store (PutTicket (Token carol) "2" priority_body 12) =
    (Json 200 (PTicket (set_updated_at 12 (set_priority (Some "high") laptop_ticket))),
     with_tickets sample_store
       [vpn_ticket; set_updated_at 12 (set_priority (Some "high") laptop_ticket)]).
Proof. reflexivity. Qed.

(** ** Creating tickets *)

Lemma post_tickets_taken `{!database} (s : store) (u : jwt_user)
    (b : gmap string jsval) (now : Z) :
  create_taken b →
  let t := {| ticket_id := next_ticket_id s; client_id := userId u;
              title := text_param (b !! "title");
              description := text_param (b !! "description");
              priority := text_in (js_or (b !! "priority") (JStr "medium"));
              category := text_in (js_or (b !! "category") (JStr "general"));
              status := Some "open"; assigned_to := None;
              resolution_notes := None; created_at := now;
              updated_at := now; closed_at := None |} in
  handle s (PostTickets (Token u) b now)
    = (Json 201 (PTicket t),
       {| users := users s; tickets := tickets s ++ [t];
          comments := comments s; next_user_id := next_user_id s;
          next_ticket_id := next_ticket_id s + 1;
          next_comment_id := next_comment_id s |}).
Proof.
  intros Hok. simpl. unfold post_tickets, insert_ticket.
  unfold create_taken in Hok. by rewrite Hok.
Qed.

(** C8, as the handler has it.  A create call whose title or description is
    the empty string is not turned down by the handler, which validates
    nothing: the empty text is bound like any other, and whenever the
    database takes the bound values the ticket is inserted with it and
    answered 201. *)
Theorem create_accepts_empty `{!database} (s : store) (u : jwt_user)
    (b : gmap string jsval) (now : Z) :
  b !! "title" = Some (JStr "") ∨ b !! "description" = Some (JStr "") →
  create_taken b →
  ∃ t s',
    handle s (PostTickets (Token u) b now) = (Json 201 (PTicket t), s')
    ∧ tickets s' = tickets s ++ [t]
    ∧ title t = text_param (b !! "title")
    ∧ description t = text_param (b !! "description").
Proof.
  intros _ Hok. rewrite (post_tickets_taken s u b now Hok). eauto 10.
Qed.

(** When the database does not take the values, the answer is 500 and no
    ticket is created; the handler has no other failure. *)
Lemma post_tickets_not_taken `{!database} (s : store) (u : jwt_user)
    (b : gmap string jsval) (now : Z) :
  ¬ create_taken b →
  ∃ s', handle s (PostTickets (Token u) b now) = (Json 500 PDbError, s')
        ∧ users s' = users s ∧ tickets s' = tickets s
        ∧ comments s' = comments s.
Proof.
  intros Hno. simpl. unfold post_tickets, insert_ticket.
  unfold create_taken in Hno. destruct (verdicts _); [done| |]; eauto.
Qed.

Lemma create_accepts_empty_witness :
  ((untitled_body !! "title" = Some (JStr "")
    ∨ untitled_body !! "description" = Some (JStr ""))
   ∧ create_taken untitled_body)
  ∧ ∃ t s',
      handle sample_store (PostTickets (Token alice) untitled_body 12)
        = (Json 201 (PTicket t), s')
      ∧ tickets s' = tickets sample_store ++ [t]
      ∧ title t = text_param (untitled_body !! "title")
      ∧ description t = text_param (untitled_body !! "description").
Proof.
  split.
  - split; [by left | reflexivity].
  - apply (create_accepts_empty sample_store alice untitled_body 12);
      [by left | reflexivity].
Defined.

(** C8 as stated fails: a ticket with an empty title is created. *)
Lemma create_empty_title_not_rejected :
  untitled_body !! "title" = Some (JStr "")
  ∧ code (handle sample_store (PostTickets (Token alice) untitled_body 12)).1
    = 201%nat
  ∧ title <$> tickets
      (handle sample_store (PostTickets (Token alice) untitled_body 12)).2
    = [Some "VPN down"; Some "New laptop"; Some ""]
  ∧ ¬ rejected (handle sample_store (PostTickets (Token alice) untitled_body 12))
        sample_store.
Proof.
  split; [reflexivity|]. split; [reflexivity|]. split; [reflexivity|].
  intros [Hcode _]. vm_compute in Hcode. lia.
Qed.

(** The handler reads four properties of the body and nothing else. *)
Lemma create_reads_four_fields `{!database} (s : store) (u : jwt_user)
    (b b' : gmap string jsval) (now : Z) :
  b' !! "title" = b !! "title" →
  b' !! "description" = b !! "description" →
  b' !! "priority" = b !! "priority" →
  b' !! "category" = b !! "category" →
  handle s (PostTickets (Token u) b' now) = handle s (PostTickets (Token u) b now).
Proof. intros H1 H2 H3 H4. simpl. unfold post_tickets. by rewrite H1, H2, H3, H4. Qed.

(** C10. The ticket of a successful create call belongs to the
    authenticated caller, is open and has no closing time, whatever the
    body says: [client_id], [status] and [closed_at] in the body are not
    read.  Both requests below create the same ticket. *)
Theorem create_owner_and_defaults `{!database} (s : store) (u : jwt_user)
    (b : gmap string jsval) (now : Z) (vc vs vz : jsval) :
  create_taken b →
  ∃ t s',
    handle s (PostTickets (Token u) b now) = (Json 201 (PTicket t), s')
    ∧ handle s
        (PostTickets (Token u)
           (<["client_id" := vc]> (<["status" := vs]> (<["closed_at" := vz]> b)))
           now)
      = (Json 201 (PTicket t), s')
    ∧ tickets s' = tickets s ++ [t]
    ∧ ticket_id t = next_ticket_id s
    ∧ client_id t = userId u
    ∧ status t = Some "open"
    ∧ closed_at t = None.
Proof.
  intros Hok.
  rewrite (create_reads_four_fields s u b
             (<["client_id" := vc]> (<["status" := vs]> (<["closed_at" := vz]> b))))
    by (by rewrite !lookup_insert_ne).
  rewrite (post_tickets_taken s u b now Hok). eauto 10.
Qed.

Lemma create_owner_and_defaults_witness :
  create_taken untitled_body
  ∧ ∃ t s',
      handle sample_store (PostTickets (Token alice) untitled_body 12)
        = (Json 201 (PTicket t), s')
      ∧ handle sample_store
          (PostTickets (Token alice)
             (<["client_id" := JNum 2]>
                (<["status" := JStr "closed"]>
                   (<["closed_at" := JNum 1]> untitled_body)))
             12)
        = (Json 201 (PTicket t), s')
      ∧ tickets s' = tickets sample_store ++ [t]
      ∧ ticket_id t = next_ticket_id sample_store
      ∧ client_id t = userId alice
      ∧ status t = Some "open"
      ∧ closed_at t = None.
Proof.
  split; [reflexivity|].
  apply (create_owner_and_defaults sample_store alice untitled_body 12
           (JNum 2) (JStr "closed") (JNum 1)).
  reflexivity.
Defined.

(** ** Reading by id *)

(** C9, as the handler has it.  Listing the comments of a ticket id that is
    not in the store succeeds with status 200: the handler reads [comments]
    only and answers with the comments stored under that id, the empty
    sequence when there are none. *)
Theorem comments_of_missing_ticket `{!database} (s : store) (u : jwt_user) (id : string)
    (n : Z) :
  users_keyed s →
  ticket_key id = Some n →
  (∀ t, t ∈ tickets s → ticket_id t ≠ n) →
  ∃ rows,
    handle s (GetComments (Token u) id) = (Json 200 (PCommentRows rows), s)
    ∧ row_comment <$> rows
        ≡ₚ filter (λ c, comment_ticket_id c = n) (comments s).
Proof.
  intros Hk Hn _. simpl. unfold get_comments. rewrite Hn.
  eexists. split; [done|]. rewrite merge_sort_Permutation.
  rewrite <- (select_comments_keyed s Hk).
  by rewrite <- filter_fmap_comm.
Qed.

Lemma comments_of_missing_ticket_witness :
  (users_keyed sample_store ∧ ticket_key "7" = Some 7
   ∧ ∀ t, t ∈ tickets sample_store → ticket_id t ≠ 7)
  ∧ ∃ rows,
      handle sample_store (GetComments (Token alice) "7")
        = (Json 200 (PCommentRows rows), sample_store)
      ∧ row_comment <$> rows
          ≡ₚ filter (λ c, comment_ticket_id c = 7) (comments sample_store).
Proof.
  assert (∀ t, t ∈ tickets sample_store → ticket_id t ≠ 7) as Hmissing.
  { apply Forall_forall. compute_done. }
  split.
  - repeat split; first [exact Hmissing | reflexivity | compute_done].
  - apply (comments_of_missing_ticket sample_store alice "7" 7);
      first [exact Hmissing | reflexivity | compute_done].
Defined.

(** C9 as stated fails: no ticket has id 7, and the answer is 200 with an
    empty sequence. *)
Lemma comments_of_missing_ticket_found :
  (∀ t, t ∈ tickets sample_store → ticket_id t ≠ 7)
  ∧ handle sample_store (GetComments (Token alice) "7")
    = (Json 200 (PCommentRows []), sample_store)
  ∧ ¬ not_found (handle sample_store (GetComments (Token alice) "7")).
Proof.
  split; [apply Forall_forall; compute_done|].
  split; [reflexivity|]. unfold not_found. by vm_compute.
Qed.

(** C3 fails on the handler: bob, a client, asks for ticket 1, which belongs
    to alice, and receives it.  The listing gives the same caller his own
    ticket only. *)
Theorem get_by_id_crosses_clients :
  role bob = "client"
  ∧ client_id vpn_ticket ≠ userId bob
  ∧ handle sample_store (GetTicketById (Token bob) "1")
    = (Json 200 (PTicketRow (TicketRow vpn_ticket (Some "Alice") None)),
       sample_store)
  ∧ handle sample_store (GetTickets (Token bob))
    = (Json 200 (PTicketRows [TicketRow laptop_ticket (Some "Bob") (Some "Carol")]),
       sample_store).
Proof. repeat split; first [reflexivity | compute_done]. Qed.

(** The handler answers every caller alike. *)
Lemma get_ticket_by_id_any_caller `{!database} (s : store) (u u' : jwt_user) (id : string) :
  handle s (GetTicketById (Token u) id) = handle s (GetTicketById (Token u') id).
Proof. reflexivity. Qed.

(** ** Reachable stores *)

Lemma run_snoc `{!database} s rs r : run s (rs ++ [r]) = (handle (run s rs) r).2.
Proof. unfold run. by rewrite foldl_snoc. Qed.

(** What one request does to the store: nothing; a value drawn from a
    sequence by a statement that failed; one user, one ticket or one comment
    appended; or one patch of the tickets with a given id. *)
Lemma handle_effect `{!database} (s : store) (r : request) :
  (handle s r).2 = s
  ∨ (handle s r).2 = skip_user_id s
  ∨ (handle s r).2 = skip_ticket_id s
  ∨ (handle s r).2 = skip_comment_id s
  ∨ (∃ v, (handle s r).2
            = {| users := users s ++ [v]; tickets := tickets s;
                 comments := comments s; next_user_id := next_user_id s + 1;
                 next_ticket_id := next_ticket_id s;
                 next_comment_id := next_comment_id s |}
          ∧ user_id v = next_user_id s
          ∧ is_Some (user_role v)
          ∧ ¬ (is_Some (email v) ∧ email v ∈ email <$> users s))
  ∨ (∃ t, (handle s r).2
            = {| users := users s; tickets := tickets s ++ [t];
                 comments := comments s; next_user_id := next_user_id s;
                 next_ticket_id := next_ticket_id s + 1;
                 next_comment_id := next_comment_id s |}
          ∧ ticket_id t = next_ticket_id s
          ∧ status t = Some "open" ∧ closed_at t = None)
  ∨ (∃ c, (handle s r).2
            = {| users := users s; tickets := tickets s;
                 comments := comments s ++ [c]; next_user_id := next_user_id s;
                 next_ticket_id := next_ticket_id s;
                 next_comment_id := next_comment_id s + 1 |})
  ∨ (∃ u id b now n p,
       r = PutTicket (Token u) id b now
       ∧ ticket_key id = Some n ∧ decode_patch b = Some p
       ∧ handle s r = apply_update s n p now
       ∧ (handle s r).2
         = with_tickets s
             ((λ t, if decide (ticket_id t = n) then apply_patch p now t else t)
                <$> tickets s)).
Proof.
  destruct r as [b h|c|c id|c b now|c id b now|c id|c id b now|c];
    try (destruct c as [| |u]; simpl; try (by left)).
  - simpl. unfold post_auth_register, insert_user.
    destruct (b !! "password") as [[]|]; try (by left).
    destruct (verdicts _); [|by left|by right; left].
    case_bool_decide as Hdup; [by right; left|].
    do 4 right. left. eexists (User _ _ _ _ _). split; [done|].
    simpl. repeat split; [|done].
    destruct (b !! "role") as [[|[]|n|r]|]; simpl; try (by eexists).
    + by destruct (negb (n =? 0)); eexists.
    + by destruct (negb (String.eqb r "")); eexists.
  - left. unfold get_tickets. by case_bool_decide.
  - left. unfold get_ticket_by_id. destruct (ticket_key id); [|done].
    by destruct (filter _ _).
  - unfold post_tickets, insert_ticket.
    destruct (verdicts _); [|by left|by do 2 right; left].
    do 5 right. left. eexists. split; [done|]. done.
  - rewrite put_ticket_spec.
    destruct (decode_patch b) as [p|] eqn:Hp; [|by left].
    destruct (ticket_key id) as [n|] eqn:Hn; [|by left].
    do 7 right. exists u, id, b, now, n, p. repeat split; try done.
    unfold apply_update. by destruct (filter _ _).
  - left. unfold get_comments. by destruct (ticket_key id).
  - unfold post_comments. destruct (ticket_key id); [|by left].
    unfold insert_comment.
    destruct (accepts _ _); [|by left|by do 3 right; left].
    do 6 right. left. by eexists.
Qed.

(** What one request does to the [tickets] table: nothing, one insertion of
    an open ticket, or one patch. *)
Lemma handle_tickets `{!database} (s : store) (r : request) :
  tickets (handle s r).2 = tickets s
  ∨ (∃ t, tickets (handle s r).2 = tickets s ++ [t]
          ∧ ticket_id t = next_ticket_id s ∧ closed_at t = None)
  ∨ (∃ u id b now n p,
       r = PutTicket (Token u) id b now
       ∧ ticket_key id = Some n ∧ decode_patch b = Some p
       ∧ tickets (handle s r).2 =
           (λ t, if decide (ticket_id t = n) then apply_patch p now t else t)
             <$> tickets s).
Proof.
  destruct (handle_effect s r)
    as [->|[->|[->|[->|[(v & -> & _)|[(t & -> & ? & ? & ?)|[(c & ->)
       |(u & id & b & now & n & p & -> & ? & ? & _ & E)]]]]]]];
    try (by left).
  - right. left. by exists t.
  - right. right. exists u, id, b, now, n, p. by rewrite E.
Qed.

Lemma closed_before_snoc `{!database} rs r n : closed_before rs n → closed_before (rs ++ [r]) n.
Proof.
  intros (rs1 & r0 & rs2 & -> & Hc & Ht).
  exists rs1, r0, (rs2 ++ [r]). by rewrite <- app_assoc.
Qed.

Lemma decode_patch_closing_inv `{!database} b p :
  decode_patch b = Some p → p_closing p = true →
  b !! "status" = Some (JStr "closed").
Proof.
  intros Hp Hc. apply decode_patch_fields in Hp as (_ & _ & _ & _ & Hc').
  rewrite Hc in Hc'. symmetry in Hc'. by apply bool_decide_eq_true in Hc'.
Qed.


Lemma closed_at_invariant `{!database} (rs : list request) (t : ticket) :
  t ∈ tickets (run empty_store rs) → closed_at t ≠ None →
  closed_before rs (ticket_id t).
Proof.
  revert t. induction rs as [|r rs IH] using rev_ind; intros t Hin Hclosed.
  { by apply elem_of_nil in Hin. }
  rewrite run_snoc in Hin.
  destruct (handle_tickets (run empty_store rs) r)
    as [E|[(t1 & E & _ & Hopen)|(u & id & b & now & n & p & -> & Hn & Hp & E)]];
    rewrite E in Hin.
  - by apply closed_before_snoc, IH.
  - apply elem_of_app in Hin as [Hin|Hin].
    + by apply closed_before_snoc, IH.
    + apply list_elem_of_singleton in Hin as ->. done.
  - apply list_elem_of_fmap in Hin as (t0 & -> & Hin0).
    destruct (decide (ticket_id t0 = n)) as [Hid|Hid].
    + simpl. destruct (p_closing p) eqn:Hc.
      * exists rs, (PutTicket (Token u) id b now), [].
        split; [done|]. split; [|split; [|by exists t0]].
        -- simpl. split; [by rewrite Hid|].
           by apply (decode_patch_closing_inv b p).
        -- rewrite (handle_put_ticket _ _ _ _ _ n p Hn Hp).
           by destruct (apply_update_found _ n p now t0 Hin0 Hid)
             as (? & _ & _ & ->).
      * apply closed_before_snoc, (IH t0 Hin0). simpl in Hclosed.
        by rewrite Hc in Hclosed.
    + by apply closed_before_snoc, IH.
Qed.

(** C6. In every store the server can reach from the empty one, a ticket
    with a closing time was closed by an earlier request: the history holds
    an authenticated update of that ticket, present at the time, whose patch
    sets status to closed and which was answered 200.  Creation and every
    other request leave [closed_at] as it was. *)
Theorem closed_at_only_by_closing `{!database} (rs : list request) (t : ticket) :
  t ∈ tickets (run empty_store rs) →
  closed_at t ≠ None →
  ∃ rs1 u id b now rs2,
    rs = rs1 ++ PutTicket (Token u) id b now :: rs2
    ∧ ticket_key id = Some (ticket_id t)
    ∧ b !! "status" = Some (JStr "closed")
    ∧ code (handle (run empty_store rs1) (PutTicket (Token u) id b now)).1
      = 200%nat
    ∧ ∃ t0, t0 ∈ tickets (run empty_store rs1) ∧ ticket_id t0 = ticket_id t.
Proof.
  intros Hin Hclosed.
  destruct (closed_at_invariant rs t Hin Hclosed)
    as (rs1 & r & rs2 & -> & Hc & Hok & Ht).
  destruct r as [| | | |[| |u] id b now| | |]; try done.
  destruct Hc as [Hn Hst]. by exists rs1, u, id, b, now, rs2.
Qed.

Lemma closed_at_only_by_closing_witness :
  (laptop_ticket ∈ tickets (run empty_store sample_trace)
   ∧ closed_at laptop_ticket ≠ None)
  ∧ ∃ rs1 u id b now rs2,
      sample_trace = rs1 ++ PutTicket (Token u) id b now :: rs2
      ∧ ticket_key id = Some (ticket_id laptop_ticket)
      ∧ b !! "status" = Some (JStr "closed")
      ∧ code (handle (run empty_store rs1) (PutTicket (Token u) id b now)).1
        = 200%nat
      ∧ ∃ t0, t0 ∈ tickets (run empty_store rs1)
              ∧ ticket_id t0 = ticket_id laptop_ticket.
Proof.
  split.
  - split; [compute_done | done].
  - apply (closed_at_only_by_closing sample_trace laptop_ticket);
      [compute_done | done].
Defined.

(** *** Generated keys stay unique *)

Lemma handle_users `{!database} (s : store) (r : request) :
  (users (handle s r).2 = users s
   ∧ next_user_id s ≤ next_user_id (handle s r).2)
  ∨ (∃ u, users (handle s r).2 = users s ++ [u]
          ∧ user_id u = next_user_id s
          ∧ next_user_id (handle s r).2 = next_user_id s + 1).
Proof.
  destruct (handle_effect s r)
    as [->|[->|[->|[->|[(v & -> & ? & _)|[(t & -> & _)|[(c & ->)
       |(u & id & b & now & n & p & -> & _ & _ & _ & ->)]]]]]]];
    try (by left; simpl; split; [done | lia]).
  right. by exists v.
Qed.

Lemma handle_ticket_ids `{!database} (s : store) (r : request) :
  (ticket_id <$> tickets (handle s r).2 = ticket_id <$> tickets s
   ∧ next_ticket_id s ≤ next_ticket_id (handle s r).2)
  ∨ (ticket_id <$> tickets (handle s r).2
       = (ticket_id <$> tickets s) ++ [next_ticket_id s]
     ∧ next_ticket_id (handle s r).2 = next_ticket_id s + 1).
Proof.
  destruct (handle_effect s r)
    as [->|[->|[->|[->|[(v & -> & _)|[(t & -> & Ht & _)|[(c & ->)
       |(u & id & b & now & n & p & -> & _ & _ & _ & ->)]]]]]]];
    try (by left; simpl; split; [done | lia]).
  - right. simpl. by rewrite fmap_app, <- Ht.
  - left. simpl. split; [|lia].
    rewrite <- list_fmap_compose. apply list_fmap_ext. intros _ t _. simpl.
    by destruct (decide (ticket_id t = n)).
Qed.

Lemma fresh_key_step (ks : list Z) (next : Z) :
  Forall (λ k, k < next) ks ∧ NoDup ks →
  Forall (λ k, k < next + 1) (ks ++ [next]) ∧ NoDup (ks ++ [next]).
Proof.
  intros [Hlt Hnd]. split.
  - apply Forall_app. split; [|by apply Forall_singleton; lia].
    eapply Forall_impl; [exact Hlt|]. simpl. lia.
  - apply NoDup_app. split; [done|]. split; [|apply NoDup_singleton].
    intros k Hk Hk'. apply list_elem_of_singleton in Hk' as ->.
    rewrite Forall_forall in Hlt. specialize (Hlt _ Hk). lia.
Qed.

Lemma fresh_key_skip (ks : list Z) (next next' : Z) :
  next ≤ next' → Forall (λ k, k < next) ks → Forall (λ k, k < next') ks.
Proof. intros Hle Hlt. eapply Forall_impl; [exact Hlt|]. simpl. lia. Qed.

Lemma run_keys `{!database} (rs : list request) :
  let s := run empty_store rs in
  (Forall (λ k, k < next_user_id s) (user_id <$> users s)
   ∧ NoDup (user_id <$> users s))
  ∧ (Forall (λ k, k < next_ticket_id s) (ticket_id <$> tickets s)
     ∧ NoDup (ticket_id <$> tickets s)).
Proof.
  induction rs as [|r rs IH] using rev_ind.
  { simpl. repeat split; constructor. }
  simpl in *. rewrite run_snoc. destruct IH as [[IHu1 IHu2] [IHt1 IHt2]]. split.
  - destruct (handle_users (run empty_store rs) r)
      as [[-> Hle]|(u & -> & Hu & ->)].
    + split; [by apply (fresh_key_skip _ _ _ Hle)|done].
    + rewrite fmap_app. simpl. rewrite Hu. by apply fresh_key_step.
  - destruct (handle_ticket_ids (run empty_store rs) r)
      as [[-> Hle]|[-> ->]].
    + split; [by apply (fresh_key_skip _ _ _ Hle)|done].
    + by apply fresh_key_step.
Qed.

(** Every store the server reaches keeps [user_id] a key of [users] and
    [ticket_id] a key of [tickets]. *)
Lemma reachable_users_keyed `{!database} (s : store) : reachable s → users_keyed s.
Proof. intros [rs ->]. apply (run_keys rs). Qed.

Lemma reachable_ticket_ids_unique `{!database} (s : store) :
  reachable s → NoDup (ticket_id <$> tickets s).
Proof. intros [rs ->]. apply (run_keys rs). Qed.

(** * Further properties *)

(** ** Routes that only read *)

(** X2. The [GET] routes only read: whatever the credential, the route
    parameter or the outcome, the store is the same afterwards. *)
Theorem get_routes_read_only `{!database} (s : store) (r : request) :
  read_only r = true → (handle s r).2 = s.
Proof.
  destruct r as [| c | c id | | | c id | | c]; try done; intros _;
    destruct c as [| |u]; try done; simpl.
  - unfold get_tickets. by case_bool_decide.
  - unfold get_ticket_by_id. destruct (ticket_key id); [|done].
    by destruct (filter _ _).
  - unfold get_comments. by destruct (ticket_key id).
Qed.

Lemma get_routes_read_only_witness :
  read_only (GetTicketById (Token bob) "1") = true
  ∧ (handle sample_store (GetTicketById (Token bob) "1")).2 = sample_store.
Proof.
  split; [reflexivity|].
  apply (get_routes_read_only sample_store (GetTicketById (Token bob) "1")).
  reflexivity.
Defined.

(** ** Registration *)

(** X3. A registration with a string password, values the database takes
    and an email nobody holds is answered 201 and appends exactly one user:
    the stored hash is the one [bcrypt] gave, the email and the name are
    the body's, the role is [client] when the body names none and the
    body's role when that is a non-empty string.  The answer carries the
    id, email, name and role of that user and no hash. *)
Theorem register_creates_user `{!database} (s : store) (b : gmap string jsval)
    (h pw : string) :
  b !! "password" = Some (JStr pw) →
  register_taken b →
  (∀ e, text_param (b !! "email") = Some e → Some e ∉ email <$> users s) →
  ∃ u s',
    handle s (PostAuthRegister b h)
      = (Json 201 (PUser (user_id u) (email u) (full_name u) (user_role u)), s')
    ∧ users s' = users s ++ [u]
    ∧ tickets s' = tickets s ∧ comments s' = comments s
    ∧ password_hash u = h
    ∧ email u = text_param (b !! "email")
    ∧ full_name u = text_param (b !! "full_name")
    ∧ (b !! "role" = None → user_role u = Some "client")
    ∧ (∀ r, b !! "role" = Some (JStr r) → r ≠ "" → user_role u = Some r).
Proof.
  intros Hpw Hok Hfresh. simpl. unfold post_auth_register, insert_user.
  unfold register_taken in Hok. rewrite Hpw, Hok.
  rewrite bool_decide_eq_false_2.
  2: { intros [[e He] Hin]. rewrite He in Hin. by apply (Hfresh e). }
  eexists (User _ _ _ _ _), _. split; [reflexivity|]. simpl.
  repeat split.
  - by intros ->.
  - intros r -> Hr. simpl. destruct (String.eqb_spec r ""); done.
Qed.

Lemma register_creates_user_witness :
  (dave_body !! "password" = Some (JStr "d")
   ∧ register_taken dave_body
   ∧ ∀ e, text_param (dave_body !! "email") = Some e →
          Some e ∉ email <$> users sample_store)
  ∧ ∃ u s',
      handle sample_store (PostAuthRegister dave_body "$2b$10$dave")
        = (Json 201 (PUser (user_id u) (email u) (full_name u) (user_role u)),
           s')
      ∧ users s' = users sample_store ++ [u]
      ∧ tickets s' = tickets sample_store
      ∧ comments s' = comments sample_store
      ∧ password_hash u = "$2b$10$dave"
      ∧ email u = text_param (dave_body !! "email")
      ∧ full_name u = text_param (dave_body !! "full_name")
      ∧ (dave_body !! "role" = None → user_role u = Some "client")
      ∧ (∀ r, dave_body !! "role" = Some (JStr r) →
              r ≠ "" → user_role u = Some r).
Proof.
  assert (∀ e, text_param (dave_body !! "email") = Some e →
               Some e ∉ email <$> users sample_store) as Hfresh.
  { intros e He. vm_compute in He. injection He as <-. compute_done. }
  split; [split; [reflexivity | split; [reflexivity | exact Hfresh]]|].
  apply (register_creates_user sample_store dave_body "$2b$10$dave" "d");
    [reflexivity | reflexivity | exact Hfresh].
Defined.

(** X4. A registration under an email another user holds, with values the
    database takes, is answered 409 and adds no user: the three tables are
    what they were. *)
Theorem register_duplicate_email `{!database} (s : store)
    (b : gmap string jsval) (h pw e : string) (u : user) :
  b !! "password" = Some (JStr pw) →
  b !! "email" = Some (JStr e) →
  register_taken b →
  u ∈ users s → email u = Some e →
  ∃ s',
    handle s (PostAuthRegister b h)
      = (Json 409 (PError "Email already exists"), s')
    ∧ users s' = users s ∧ tickets s' = tickets s ∧ comments s' = comments s.
Proof.
  intros Hpw He Hok Hin Hu. simpl. unfold post_auth_register, insert_user.
  unfold register_taken in Hok. rewrite Hpw, Hok, He. simpl.
  rewrite bool_decide_eq_true_2; [by eexists|].
  split; [by eexists|]. rewrite <- Hu. by apply list_elem_of_fmap_2.
Qed.

Lemma register_duplicate_email_witness :
  (alice_again_body !! "password" = Some (JStr "x")
   ∧ alice_again_body !! "email" = Some (JStr "alice@example.com")
   ∧ register_taken alice_again_body
   ∧ alice_row ∈ users sample_store
   ∧ email alice_row = Some "alice@example.com")
  ∧ ∃ s',
      handle sample_store (PostAuthRegister alice_again_body "$2b$10$x")
        = (Json 409 (PError "Email already exists"), s')
      ∧ users s' = users sample_store ∧ tickets s' = tickets sample_store
      ∧ comments s' = comments sample_store.
Proof.
  split; [repeat split; first [reflexivity | compute_done]|].
  apply (register_duplicate_email sample_store alice_again_body "$2b$10$x"
           "x" "alice@example.com" alice_row);
    first [reflexivity | compute_done].
Defined.

(** ** Keys of reachable stores *)

Lemma handle_emails `{!database} (s : store) (r : request) :
  emails_unique s → emails_unique (handle s r).2.
Proof.
  intros Hs.
  destruct (handle_effect s r)
    as [->|[->|[->|[->|[(v & -> & _ & _ & Hdup)|[(t & -> & _)|[(c & ->)
       |(u & id & b & now & n & p & -> & _ & _ & _ & ->)]]]]]]];
    try done.
  unfold emails_unique in *. simpl. rewrite omap_app. simpl.
  destruct (email v) as [e|] eqn:He; simpl; [|by rewrite app_nil_r].
  apply NoDup_app. split; [done|]. split; [|apply NoDup_singleton].
  intros e' Hin Hin'. apply list_elem_of_singleton in Hin' as ->.
  apply Hdup. split; [by eexists|].
  apply list_elem_of_omap in Hin as (w & Hw & Hew).
  rewrite <- Hew. by apply list_elem_of_fmap_2.
Qed.

(** X5. Whatever requests the server has handled since it started on an
    empty store, the generated keys are sound: no two users share a
    [user_id], no two tickets share a [ticket_id], every key in use is below
    the next value of its sequence, and no two users share an email. *)
Theorem reachable_keys_sound `{!database} (rs : list request) :
  users_keyed (run empty_store rs)
  ∧ NoDup (ticket_id <$> tickets (run empty_store rs))
  ∧ keys_fresh (run empty_store rs)
  ∧ emails_unique (run empty_store rs).
Proof.
  pose proof (run_keys rs) as [[Hu1 Hu2] [Ht1 Ht2]]. simpl in *.
  repeat split; try done. clear.
  induction rs as [|r rs IH] using rev_ind; [constructor|].
  rewrite run_snoc. by apply handle_emails.
Qed.

(** ** Reading one ticket *)

Lemma filter_unique_key {A} (f : A → Z) (P : A → Prop)
    `{∀ y, Decision (P y)} (l : list A) (x : A) :
  NoDup (f <$> l) → x ∈ l → (∀ y, P y ↔ f y = f x) → filter P l = [x].
Proof.
  intros Hnd Hin HP. induction l as [|y l IH]; [by apply elem_of_nil in Hin|].
  rewrite fmap_cons in Hnd. apply NoDup_cons in Hnd as [Hfresh Hnd].
  rewrite filter_cons. apply elem_of_cons in Hin as [->|Hin].
  - rewrite decide_True by (by apply HP). f_equal.
    destruct (filter P l) as [|z zs] eqn:E; [done|]. exfalso.
    assert (z ∈ filter P l) as Hz by (rewrite E; left).
    apply list_elem_of_filter in Hz as [Hz Hzl]. apply HP in Hz.
    apply Hfresh. rewrite <- Hz. by apply list_elem_of_fmap_2.
  - rewrite decide_False; [by apply IH|].
    intros Hy. apply HP in Hy. apply Hfresh. rewrite Hy.
    by apply list_elem_of_fmap_2.
Qed.

Lemma joined_name_found (us : list user) (v : user) :
  NoDup (user_id <$> us) → v ∈ us →
  joined_name us (Some (user_id v)) = [full_name v].
Proof.
  intros Hnd Hin. unfold joined_name.
  rewrite (filter_unique_key user_id _ us v Hnd Hin); [done|].
  intros y. split; congruence.
Qed.

Lemma joined_name_null (us : list user) : joined_name us None = [None].
Proof.
  unfold joined_name.
  destruct (filter _ us) as [|u l] eqn:E; [done|]. exfalso.
  assert (u ∈ u :: l) as Hu by left. rewrite <- E in Hu.
  by apply list_elem_of_filter in Hu as [? _].
Qed.

Lemma select_tickets_elem (s : store) (r : ticket_row) :
  r ∈ select_tickets s →
  row_ticket r ∈ tickets s
  ∧ client_name r ∈ joined_name (users s) (Some (client_id (row_ticket r)))
  ∧ assigned_to_name r ∈ joined_name (users s) (assigned_to (row_ticket r)).
Proof.
  unfold select_tickets. intros Hin.
  apply list_elem_of_bind in Hin as (t & Hin & Ht).
  apply list_elem_of_bind in Hin as (cn & Hin & Hcn).
  apply list_elem_of_bind in Hin as (an & Hin & Han).
  apply list_elem_of_singleton in Hin as ->. done.
Qed.

(** X6. Asking for a ticket id that no ticket has is answered 404, and the
    store is the same. *)
Theorem get_by_id_missing `{!database} (s : store) (u : jwt_user) (id : string) (n : Z) :
  ticket_key id = Some n →
  (∀ t, t ∈ tickets s → ticket_id t ≠ n) →
  handle s (GetTicketById (Token u) id)
    = (Json 404 (PError "Ticket not found"), s).
Proof.
  intros Hn Hmissing. simpl. unfold get_ticket_by_id. rewrite Hn.
  destruct (filter _ (select_tickets s)) as [|r rows] eqn:E; [done|].
  exfalso.
  assert (r ∈ r :: rows) as Hr by left. rewrite <- E in Hr.
  apply list_elem_of_filter in Hr as [Hid Hr].
  apply select_tickets_elem in Hr as [Hr _]. by apply (Hmissing _ Hr).
Qed.

Lemma get_by_id_missing_witness :
  (ticket_key "7" = Some 7 ∧ ∀ t, t ∈ tickets sample_store → ticket_id t ≠ 7)
  ∧ handle sample_store (GetTicketById (Token carol) "7")
    = (Json 404 (PError "Ticket not found"), sample_store).
Proof.
  assert (∀ t, t ∈ tickets sample_store → ticket_id t ≠ 7) as Hmissing.
  { apply Forall_forall. compute_done. }
  split; [split; [reflexivity | exact Hmissing]|].
  apply (get_by_id_missing sample_store carol "7" 7);
    [reflexivity | exact Hmissing].
Defined.

(** X7. A route parameter that is not a decimal integer makes every route
    that takes one answer 500 and leave the store as it was: reading a
    ticket, updating it, listing its comments and commenting on it. *)
Theorem non_numeric_id_fails `{!database} (s : store) (u : jwt_user) (id : string)
    (b : gmap string jsval) (now : Z) :
  ticket_key id = None →
  handle s (GetTicketById (Token u) id) = (Json 500 PDbError, s)
  ∧ handle s (PutTicket (Token u) id b now) = (Json 500 PDbError, s)
  ∧ handle s (GetComments (Token u) id) = (Json 500 PDbError, s)
  ∧ handle s (PostComments (Token u) id b now) = (Json 500 PDbError, s).
Proof.
  intros Hn. simpl. rewrite put_ticket_spec.
  unfold get_ticket_by_id, get_comments, post_comments. rewrite Hn.
  repeat split. by destruct (decode_patch b).
Qed.

Lemma non_numeric_id_fails_witness :
  ticket_key "abc" = None
  ∧ handle sample_store (GetTicketById (Token carol) "abc")
    = (Json 500 PDbError, sample_store)
  ∧ handle sample_store (PutTicket (Token carol) "abc" close_body 12)
    = (Json 500 PDbError, sample_store)
  ∧ handle sample_store (GetComments (Token carol) "abc")
    = (Json 500 PDbError, sample_store)
  ∧ handle sample_store (PostComments (Token carol) "abc" close_body 12)
    = (Json 500 PDbError, sample_store).
Proof.
  split; [reflexivity|].
  apply (non_numeric_id_fails sample_store carol "abc" close_body 12).
  reflexivity.
Defined.

(** X8. Asking for the id of a ticket of the store is answered 200 with that
    ticket, joined with the full name of its owner and of its assignee (NULL
    for a ticket nobody is assigned to).  Keys are unique, as in every
    reachable store. *)
Theorem get_by_id_found `{!database} (s : store) (u : jwt_user) (id : string) (t : ticket) :
  users_keyed s →
  NoDup (ticket_id <$> tickets s) →
  t ∈ tickets s →
  ticket_key id = Some (ticket_id t) →
  ∃ cn an,
    handle s (GetTicketById (Token u) id)
      = (Json 200 (PTicketRow (TicketRow t cn an)), s)
    ∧ (∀ v, v ∈ users s → user_id v = client_id t → cn = full_name v)
    ∧ (∀ v, v ∈ users s → assigned_to t = Some (user_id v) → an = full_name v)
    ∧ (assigned_to t = None → an = None).
Proof.
  intros Hk Hnd Hin Hn. simpl. unfold get_ticket_by_id. rewrite Hn.
  pose proof (filter_fmap_comm row_ticket (λ t0, ticket_id t0 = ticket_id t)
                (select_tickets s)) as Hrows.
  rewrite (select_tickets_keyed s Hk) in Hrows.
  rewrite (filter_unique_key ticket_id _ (tickets s) t Hnd Hin) in Hrows by done.
  destruct (filter _ (select_tickets s)) as [|[t' cn an] rows] eqn:E; [done|].
  injection Hrows as -> _.
  assert (TicketRow t cn an ∈ TicketRow t cn an :: rows) as Hr by left.
  rewrite <- E in Hr.
  apply list_elem_of_filter in Hr as [_ Hr].
  apply select_tickets_elem in Hr as (_ & Hcn & Han). simpl in *.
  exists cn, an. split; [done|]. repeat split.
  - intros v Hv Hid. rewrite <- Hid, (joined_name_found _ v Hk Hv) in Hcn.
    by apply list_elem_of_singleton in Hcn.
  - intros v Hv Hid. rewrite Hid, (joined_name_found _ v Hk Hv) in Han.
    by apply list_elem_of_singleton in Han.
  - intros Hnone. rewrite Hnone, joined_name_null in Han.
    by apply list_elem_of_singleton in Han.
Qed.

Lemma get_by_id_found_witness :
  (users_keyed sample_store
   ∧ NoDup (ticket_id <$> tickets sample_store)
   ∧ laptop_ticket ∈ tickets sample_store
   ∧ ticket_key "2" = Some (ticket_id laptop_ticket))
  ∧ ∃ cn an,
      handle sample_store (GetTicketById (Token alice) "2")
        = (Json 200 (PTicketRow (TicketRow laptop_ticket cn an)), sample_store)
      ∧ (∀ v, v ∈ users sample_store → user_id v = client_id laptop_ticket →
              cn = full_name v)
      ∧ (∀ v, v ∈ users sample_store →
              assigned_to laptop_ticket = Some (user_id v) → an = full_name v)
      ∧ (assigned_to laptop_ticket = None → an = None).
Proof.
  split; [repeat split; first [reflexivity | compute_done]|].
  apply (get_by_id_found sample_store alice "2" laptop_ticket);
    first [reflexivity | compute_done].
Defined.

(** ** Creating and reading back *)

(** X9. A ticket that was just created can be read back by its id: in a
    store whose keys are sound, a create call whose values the database
    takes is answered 201 with a ticket [t], and asking for [t]'s id
    afterwards, by any caller, is answered 200 with that same ticket. *)
Theorem create_then_get `{!database} (s : store) (u u' : jwt_user)
    (b : gmap string jsval) (now : Z) (id : string) :
  users_keyed s →
  NoDup (ticket_id <$> tickets s) →
  keys_fresh s →
  create_taken b →
  ticket_key id = Some (next_ticket_id s) →
  ∃ t s' cn an,
    handle s (PostTickets (Token u) b now) = (Json 201 (PTicket t), s')
    ∧ ticket_id t = next_ticket_id s
    ∧ handle s' (GetTicketById (Token u') id)
      = (Json 200 (PTicketRow (TicketRow t cn an)), s').
Proof.
  intros Hk Hnd [_ Hfresh] Hok Hn.
  rewrite (post_tickets_taken s u b now Hok).
  set (t := {| ticket_id := next_ticket_id s |}).
  set (s' := {| tickets := tickets s ++ [t] |}).
  assert (users_keyed s') as Hk' by done.
  assert (NoDup (ticket_id <$> tickets s')) as Hnd'.
  { simpl. rewrite fmap_app. apply NoDup_app. split; [done|].
    split; [|apply NoDup_singleton].
    intros k Hin Hk0. apply list_elem_of_singleton in Hk0 as ->.
    rewrite Forall_forall in Hfresh. specialize (Hfresh _ Hin). simpl in Hfresh.
    lia. }
  assert (t ∈ tickets s') as Hin by (simpl; apply elem_of_app; right; left).
  destruct (get_by_id_found s' u' id t Hk' Hnd' Hin Hn) as (cn & an & Hget & _).
  by exists t, s', cn, an.
Qed.

Lemma create_then_get_witness :
  (users_keyed sample_store
   ∧ NoDup (ticket_id <$> tickets sample_store)
   ∧ keys_fresh sample_store
   ∧ create_taken untitled_body
   ∧ ticket_key "3" = Some (next_ticket_id sample_store))
  ∧ ∃ t s' cn an,
      handle sample_store (PostTickets (Token alice) untitled_body 12)
        = (Json 201 (PTicket t), s')
      ∧ ticket_id t = next_ticket_id sample_store
      ∧ handle s' (GetTicketById (Token carol) "3")
        = (Json 200 (PTicketRow (TicketRow t cn an)), s').
Proof.
  assert (keys_fresh sample_store) as Hfresh by (split; compute_done).
  split; [repeat split; first [exact Hfresh | reflexivity | compute_done]|].
  apply (create_then_get sample_store alice carol untitled_body 12 "3");
    first [exact Hfresh | reflexivity | compute_done].
Defined.

(** X10. The priority and the category of a new ticket are never NULL: a
    body that names none, or names [null], [false], [0] or the empty string,
    gives [medium] and [general]; a non-empty string is stored as given and
    a number or [true] as the text the driver sends for it. *)
Theorem create_defaults `{!database} (s : store) (u : jwt_user)
    (b : gmap string jsval) (now : Z) :
  create_taken b →
  ∃ t s',
    handle s (PostTickets (Token u) b now) = (Json 201 (PTicket t), s')
    ∧ is_Some (priority t) ∧ is_Some (category t)
    ∧ priority t =
        match b !! "priority" with
        | Some (JStr p) => if decide (p = "") then Some "medium" else Some p
        | Some (JNum n) =>
            if decide (n = 0) then Some "medium" else Some (number_text n)
        | Some (JBool true) => Some "true"
        | _ => Some "medium"
        end
    ∧ category t =
        match b !! "category" with
        | Some (JStr c) => if decide (c = "") then Some "general" else Some c
        | Some (JNum n) =>
            if decide (n = 0) then Some "general" else Some (number_text n)
        | Some (JBool true) => Some "true"
        | _ => Some "general"
        end.
Proof.
  intros Hok. rewrite (post_tickets_taken s u b now Hok).
  do 2 eexists. split; [reflexivity|]. simpl.
  assert (∀ v d,
    text_in (js_or v (JStr d)) =
      match v with
      | Some (JStr p) => if decide (p = "") then Some d else Some p
      | Some (JNum n) => if decide (n = 0) then Some d else Some (number_text n)
      | Some (JBool true) => Some "true"
      | _ => Some d
      end) as Hor.
  { intros [[|[]|n|p]|] d; simpl; try done.
    - destruct (Z.eqb_spec n 0), (decide (n = 0)); done.
    - destruct (String.eqb_spec p ""), (decide (p = "")); done. }
  rewrite !Hor. repeat split; try done.
  - destruct (b !! "priority") as [[|[]|n|p]|]; try (by eexists);
      case_decide; by eexists.
  - destruct (b !! "category") as [[|[]|n|p]|]; try (by eexists);
      case_decide; by eexists.
Qed.

Lemma create_defaults_witness :
  create_taken untitled_body
  ∧ ∃ t s',
      handle sample_store (PostTickets (Token alice) untitled_body 12)
        = (Json 201 (PTicket t), s')
      ∧ is_Some (priority t) ∧ is_Some (category t)
      ∧ priority t =
          match untitled_body !! "priority" with
          | Some (JStr p) => if decide (p = "") then Some "medium" else Some p
          | Some (JNum n) =>
              if decide (n = 0) then Some "medium" else Some (number_text n)
          | Some (JBool true) => Some "true"
          | _ => Some "medium"
          end
      ∧ category t =
          match untitled_body !! "category" with
          | Some (JStr c) => if decide (c = "") then Some "general" else Some c
          | Some (JNum n) =>
              if decide (n = 0) then Some "general" else Some (number_text n)
          | Some (JBool true) => Some "true"
          | _ => Some "general"
          end.
Proof.
  split; [reflexivity|].
  apply (create_defaults sample_store alice untitled_body 12). reflexivity.
Defined.

(** ** More on the update handler *)

Lemma with_tickets_id (s : store) : with_tickets s (tickets s) = s.
Proof. by destruct s. Qed.

Lemma patch_nothing (s : store) (n : Z) (f : ticket → ticket) :
  (∀ t, t ∈ tickets s → ticket_id t ≠ n) →
  (λ t, if decide (ticket_id t = n) then f t else t) <$> tickets s = tickets s.
Proof.
  intros Hmissing. induction (tickets s) as [|t ts IH]; [done|].
  rewrite fmap_cons, IH.
  - rewrite decide_False; [done|]. apply Hmissing. left.
  - intros t' Hin. apply Hmissing. by right.
Qed.

(** X11. An update of a ticket id that no ticket has is answered 404 and
    changes nothing. *)
Theorem update_missing_ticket `{!database} (s : store) (u : jwt_user) (id : string)
    (b : gmap string jsval) (now n : Z) :
  ticket_key id = Some n →
  is_Some (decode_patch b) →
  (∀ t, t ∈ tickets s → ticket_id t ≠ n) →
  handle s (PutTicket (Token u) id b now)
    = (Json 404 (PError "Ticket not found"), s).
Proof.
  intros Hn [p Hp] Hmissing. rewrite (handle_put_ticket _ _ _ _ _ n p Hn Hp).
  unfold apply_update. rewrite patch_nothing, with_tickets_id by done.
  destruct (filter _ (tickets s)) as [|t ts] eqn:E; [done|]. exfalso.
  assert (t ∈ t :: ts) as Ht by left. rewrite <- E in Ht.
  apply list_elem_of_filter in Ht as [Hid Ht]. by apply (Hmissing t).
Qed.

Lemma update_missing_ticket_witness :
  (ticket_key "7" = Some 7 ∧ is_Some (decode_patch close_body)
   ∧ ∀ t, t ∈ tickets sample_store → ticket_id t ≠ 7)
  ∧ handle sample_store (PutTicket (Token carol) "7" close_body 12)
    = (Json 404 (PError "Ticket not found"), sample_store).
Proof.
  assert (∀ t, t ∈ tickets sample_store → ticket_id t ≠ 7) as Hmissing.
  { apply Forall_forall. compute_done. }
  assert (is_Some (decode_patch close_body)) as Hp by (by eexists).
  split; [repeat split; first [exact Hmissing | exact Hp | reflexivity]|].
  apply (update_missing_ticket sample_store carol "7" close_body 12 7);
    first [exact Hmissing | exact Hp | reflexivity].
Defined.

(** X12. An update is all or nothing: when [assigned_to] is a value the
    server cannot read as an integer, the answer is 500 and no field of the
    patch is applied, whatever else the body sets. *)
Theorem update_rejected_whole `{!database} (s : store) (u : jwt_user) (id : string)
    (b : gmap string jsval) (now : Z) (v : jsval) :
  b !! "assigned_to" = Some v →
  int_in v = None →
  handle s (PutTicket (Token u) id b now) = (Json 500 PDbError, s).
Proof.
  intros Hv Hin. simpl. rewrite put_ticket_spec. unfold decode_patch.
  rewrite Hv. simpl. rewrite Hin. simpl.
  by destruct (text_change "tickets.status" _),
    (text_change "tickets.priority" _).
Qed.

Lemma update_rejected_whole_witness :
  (misassigned_body !! "assigned_to" = Some (JStr "carol")
   ∧ int_in (JStr "carol") = None)
  ∧ handle sample_store (PutTicket (Token carol) "1" misassigned_body 12)
    = (Json 500 PDbError, sample_store).
Proof.
  split; [split; reflexivity|].
  apply (update_rejected_whole sample_store carol "1" misassigned_body 12
           (JStr "carol")); reflexivity.
Defined.

(** X13. A body that names none of the four fields still updates: the
    answer is 200 and the ticket only moves its [updated_at]; whatever else
    the body holds is not read. *)
Theorem update_without_fields `{!database} (s : store) (u : jwt_user) (id : string)
    (b : gmap string jsval) (now n : Z) (t : ticket) :
  b !! "status" = None →
  b !! "priority" = None →
  b !! "assigned_to" = None →
  b !! "resolution_notes" = None →
  ticket_key id = Some n →
  t ∈ tickets s → ticket_id t = n →
  ∃ t0, t0 ∈ tickets s ∧ ticket_id t0 = n
    ∧ handle s (PutTicket (Token u) id b now) =
        (Json 200 (PTicket (set_updated_at now t0)),
         with_tickets s
           ((λ t, if decide (ticket_id t = n) then set_updated_at now t else t)
              <$> tickets s)).
Proof.
  intros Hst Hprio Hass Hres Hn Hin Hid.
  set (p := {| p_status := Keep; p_priority := Keep; p_assigned_to := Keep;
               p_resolution_notes := Keep; p_closing := false |}).
  assert (decode_patch b = Some p) as Hp.
  { unfold decode_patch. by rewrite Hprio, Hst, Hass, Hres. }
  rewrite (handle_put_ticket _ _ _ _ _ n p Hn Hp).
  destruct (apply_update_found s n p now t Hin Hid) as (t0 & Hin0 & Hid0 & ->).
  by exists t0.
Qed.

Lemma update_without_fields_witness :
  (title_body !! "status" = None ∧ title_body !! "priority" = None
   ∧ title_body !! "assigned_to" = None
   ∧ title_body !! "resolution_notes" = None
   ∧ ticket_key "1" = Some 1
   ∧ vpn_ticket ∈ tickets sample_store ∧ ticket_id vpn_ticket = 1)
  ∧ ∃ t0, t0 ∈ tickets sample_store ∧ ticket_id t0 = 1
      ∧ handle sample_store (PutTicket (Token carol) "1" title_body 12) =
          (Json 200 (PTicket (set_updated_at 12 t0)),
           with_tickets sample_store
             ((λ t, if decide (ticket_id t = 1) then set_updated_at 12 t else t)
                <$> tickets sample_store)).
Proof.
  split; [repeat split; first [reflexivity | compute_done]|].
  apply (update_without_fields sample_store carol "1" title_body 12 1 vpn_ticket);
    first [reflexivity | compute_done].
Defined.

Lemma apply_patch_twice (p : patch) (now1 now2 : Z) (t : ticket) :
  apply_patch p now2 (apply_patch p now1 t) = apply_patch p now2 t.
Proof.
  destruct p as [[|?] [|?] [|?] [|?] []]; reflexivity.
Qed.

(** X14. Sending the same patch for the same ticket twice is the same as
    sending it once, the second time: the answer and the store after both
    updates are those of the later update alone. *)
Theorem update_twice `{!database} (s : store) (u1 u2 : jwt_user) (id : string)
    (b : gmap string jsval) (now1 now2 : Z) :
  handle (handle s (PutTicket (Token u1) id b now1)).2
    (PutTicket (Token u2) id b now2)
  = handle s (PutTicket (Token u2) id b now2).
Proof.
  simpl. rewrite !put_ticket_spec.
  destruct (decode_patch b) as [p|]; [|done].
  destruct (ticket_key id) as [n|]; [|done].
  assert (∀ ts : list ticket,
    (λ t, if decide (ticket_id t = n) then apply_patch p now2 t else t)
      <$> ((λ t, if decide (ticket_id t = n) then apply_patch p now1 t else t)
             <$> ts)
    = (λ t, if decide (ticket_id t = n) then apply_patch p now2 t else t)
        <$> ts) as Hmap.
  { intros ts. rewrite <- list_fmap_compose. apply list_fmap_ext.
    intros _ t _. simpl. destruct (decide (ticket_id t = n)) as [E|E].
    - simpl. rewrite decide_True by done. apply apply_patch_twice.
    - by rewrite decide_False. }
  unfold apply_update at 1 3. 
  assert (tickets (apply_update s n p now1).2
          = (λ t, if decide (ticket_id t = n) then apply_patch p now1 t else t)
              <$> tickets s) as Ht by apply tickets_apply_update.
  assert (with_tickets (apply_update s n p now1).2 = with_tickets s) as Hw.
  { unfold apply_update. by destruct (filter _ (tickets s)). }
  rewrite Hw, Ht, Hmap.
  assert (∀ ts : list ticket,
    filter (λ t, ticket_id t = n)
      ((λ t, if decide (ticket_id t = n) then apply_patch p now1 t else t)
         <$> ts)
    = apply_patch p now1 <$> filter (λ t, ticket_id t = n) ts) as Hfil.
  { induction ts as [|t ts IH]; [done|]. rewrite fmap_cons, !filter_cons.
    cbn beta. destruct (decide (ticket_id t = n)) as [E|E].
    - rewrite decide_True by done. by rewrite fmap_cons, IH.
    - by rewrite decide_False. }
  rewrite Hfil. destruct (filter _ (tickets s)) as [|t ts]; [done|].
  simpl. by rewrite apply_patch_twice.
Qed.

(** X15. The statement the update handler assembles is well formed whatever
    the body: the bound values are as many as the placeholders, the last one
    is the route parameter and it is the one the [WHERE] clause names, every
    assignment refers to a bound value other than that one, and the last
    assignment is the touch of [updated_at]. *)
Theorem build_update_well_formed (b : gmap string jsval) (id : string) :
  let q := build_update b id in
  length (values q) = paramCount q
  ∧ bind_param (values q) (paramCount q) = Some (JStr id)
  ∧ Forall (placeholder_bound q) (fields q)
  ∧ last (fields q) = Some (col_updated_at, CURRENT_TIMESTAMP).
Proof.
  unfold build_update.
  destruct (b !! "status") as [v1|], (b !! "priority") as [v2|],
    (b !! "assigned_to") as [v3|], (b !! "resolution_notes") as [v4|];
    simpl; try case_bool_decide; simpl;
    (split; [reflexivity|]); (split; [reflexivity|]);
    (split; [|reflexivity]);
    repeat (apply Forall_cons; split;
            [first [exact I | split; [simpl; lia | by eexists]]|]);
    apply Forall_nil_2.
Qed.

(** ** What no request undoes *)

(** X16. Tickets are never deleted and their identity never changes:
    whatever the request and its outcome, the tickets of the store keep
    their order, id, owner, title, description, category and creation
    time, and a new ticket can only come at the end. *)
Theorem tickets_append_only `{!database} (s : store) (r : request) :
  immutable_part <$> tickets s
    `prefix_of` immutable_part <$> tickets (handle s r).2.
Proof.
  destruct (handle_tickets s r)
    as [->|[(t & -> & _)|(u & id & b & now & n & p & _ & _ & _ & ->)]].
  - done.
  - rewrite fmap_app. by apply prefix_app_r.
  - rewrite <- list_fmap_compose.
    assert (immutable_part <$> tickets s
            = immutable_part
                ∘ (λ t, if decide (ticket_id t = n) then apply_patch p now t else t)
                <$> tickets s) as <-; [|done].
    apply list_fmap_ext. intros _ t _. simpl.
    by destruct (decide (ticket_id t = n)).
Qed.

(** X17. Comments are append-only: whatever the request and its outcome,
    the comments of the store are still there afterwards, unchanged and in
    the same order. *)
Theorem comments_append_only `{!database} (s : store) (r : request) :
  comments s `prefix_of` comments (handle s r).2.
Proof.
  destruct (handle_effect s r)
    as [->|[->|[->|[->|[(v & -> & _)|[(t & -> & _)|[(c & ->)
       |(u & id & b & now & n & p & -> & _ & _ & _ & ->)]]]]]]];
    try done.
  simpl. by apply prefix_app_r.
Qed.

(** ** Comments *)

Global Instance oldest_first_total : Total oldest_first.
Proof. intros r1 r2. unfold oldest_first. lia. Qed.

(** X18. A comment can be read back: commenting on a ticket, with a text the
    database takes, is answered 201 with a comment whose ticket is the one of the route, whose author is the
    caller and whose time is the time of the request; listing the comments
    of that ticket afterwards, by any caller, is answered 200 with a
    sequence that is ordered by creation time, oldest first, holds only
    comments of that ticket, and holds the new comment with its author's
    full name. *)
Theorem comment_then_list `{!database} (s : store) (u u' : jwt_user) (id : string)
    (n : Z) (b : gmap string jsval) (now : Z) (t : ticket) (v : user) :
  users_keyed s →
  ticket_key id = Some n →
  comment_taken b →
  t ∈ tickets s → ticket_id t = n →
  v ∈ users s → user_id v = userId u →
  ∃ c s' rows,
    handle s (PostComments (Token u) id b now) = (Json 201 (PComment c), s')
    ∧ comment_ticket_id c = n
    ∧ comment_user_id c = userId u
    ∧ comment_text c = text_param (b !! "comment_text")
    ∧ comment_created_at c = now
    ∧ handle s' (GetComments (Token u') id) = (Json 200 (PCommentRows rows), s')
    ∧ Sorted oldest_first rows
    ∧ Forall (λ r, comment_ticket_id (row_comment r) = n) rows
    ∧ CommentRow c (full_name v) ∈ rows.
Proof.
  intros Hk Hn Hok _ _ Hv Hid. simpl.
  unfold post_comments, get_comments, insert_comment.
  unfold comment_taken in Hok. rewrite Hn, Hok. simpl.
  set (c := {| comment_id := next_comment_id s |}).
  set (s' := {| comments := comments s ++ [c] |}).
  exists c, s'. eexists. repeat split.
  - apply (Sorted_merge_sort oldest_first).
  - apply Forall_forall. intros r Hr. rewrite merge_sort_Permutation in Hr.
    by apply list_elem_of_filter in Hr as [? _].
  - rewrite merge_sort_Permutation. apply list_elem_of_filter. split; [done|].
    unfold select_comments. apply list_elem_of_bind. exists c.
    split; [|simpl; apply elem_of_app; right; left].
    apply list_elem_of_bind. exists (full_name v). split; [left|].
    simpl. rewrite <- Hid, (joined_name_found _ v Hk Hv). left.
Qed.


Lemma comment_then_list_witness :
  (users_keyed sample_store ∧ ticket_key "1" = Some 1
   ∧ comment_taken comment_body
   ∧ vpn_ticket ∈ tickets sample_store ∧ ticket_id vpn_ticket = 1
   ∧ carol_row ∈ users sample_store ∧ user_id carol_row = userId carol)
  ∧ ∃ c s' rows,
      handle sample_store (PostComments (Token carol) "1" comment_body 12)
        = (Json 201 (PComment c), s')
      ∧ comment_ticket_id c = 1
      ∧ comment_user_id c = userId carol
      ∧ comment_text c = text_param (comment_body !! "comment_text")
      ∧ comment_created_at c = 12
      ∧ handle s' (GetComments (Token alice) "1")
        = (Json 200 (PCommentRows rows), s')
      ∧ Sorted oldest_first rows
      ∧ Forall (λ r, comment_ticket_id (row_comment r) = 1) rows
      ∧ CommentRow c (full_name carol_row) ∈ rows.
Proof.
  split; [repeat split; first [reflexivity | compute_done]|].
  apply (comment_then_list sample_store carol alice "1" 1 comment_body 12
           vpn_ticket carol_row);
    first [reflexivity | compute_done].
Defined.

(** ** The dashboard *)

Lemma count_three (ts : list ticket) :
  (count_status "open" ts + count_status "in_progress" ts
   + count_status "closed" ts ≤ length ts)%nat.
Proof.
  unfold count_status. induction ts as [|t ts IH]; [done|].
  rewrite !filter_cons.
  destruct (decide (status t = Some "open")) as [E|_];
    [rewrite E; simpl; lia|].
  destruct (decide (status t = Some "in_progress")) as [E|_];
    [rewrite E; simpl; lia|].
  destruct (decide (status t = Some "closed")); simpl; lia.
Qed.

(** X20. The three counts by status of the dashboard never add up to more
    than its total, and the total never exceeds the number of tickets in
    the store: a ticket is counted under one status at most, and a status
    other than open, in_progress and closed is counted in the total only. *)
Theorem stats_counts_bounded `{!database} (s : store) (u : jwt_user) :
  ∃ st,
    handle s (GetDashboardStats (Token u)) = (Json 200 (PStats st), s)
    ∧ (open_tickets st + in_progress_tickets st + closed_tickets st
       ≤ total_tickets st)%nat
    ∧ (total_tickets st ≤ length (tickets s))%nat.
Proof.
  simpl. unfold get_dashboard_stats. eexists. split; [reflexivity|]. simpl.
  split; [apply count_three|].
  case_bool_decide; [apply length_filter | done].
Qed.

(** ** A closed ticket has a closing time *)

Lemma text_in_closed `{!database} (v : jsval) :
  text_in v = Some "closed" → v = JStr "closed".
Proof.
  destruct v as [|[]|n|s]; simpl; intros [= Heq]; [|by subst].
  pose proof (number_text_numeric n) as Hnum. by rewrite Heq in Hnum.
Qed.

Lemma decode_patch_status `{!database} b p :
  decode_patch b = Some p →
  text_change "tickets.status" (b !! "status") = Some (p_status p)
  ∧ p_closing p = bool_decide (b !! "status" = Some (JStr "closed")).
Proof.
  intros Hp. by apply decode_patch_fields in Hp as (? & _ & _ & _ & ?).
Qed.

Lemma handle_tickets_status `{!database} (s : store) (r : request) :
  tickets (handle s r).2 = tickets s
  ∨ (∃ t, tickets (handle s r).2 = tickets s ++ [t] ∧ status t = Some "open")
  ∨ (∃ b now n p,
       decode_patch b = Some p
       ∧ tickets (handle s r).2 =
           (λ t, if decide (ticket_id t = n) then apply_patch p now t else t)
             <$> tickets s).
Proof.
  destruct (handle_effect s r)
    as [->|[->|[->|[->|[(v & -> & _)|[(t & -> & _ & ? & _)|[(c & ->)
       |(u & id & b & now & n & p & -> & _ & ? & _ & E)]]]]]]];
    try (by left).
  - right. left. by exists t.
  - right. right. exists b, now, n, p. by rewrite E.
Qed.

(** X21. In every store the server can reach from the empty one, a ticket
    whose status is closed has a closing time: no sequence of requests
    leaves a ticket closed and [closed_at] NULL. *)
Theorem closed_ticket_is_stamped `{!database} (rs : list request) (t : ticket) :
  t ∈ tickets (run empty_store rs) →
  status t = Some "closed" →
  is_Some (closed_at t).
Proof.
  revert t. induction rs as [|r rs IH] using rev_ind; intros t Hin Hst.
  { by apply elem_of_nil in Hin. }
  rewrite run_snoc in Hin.
  destruct (handle_tickets_status (run empty_store rs) r)
    as [E|[(t1 & E & Hopen)|(b & now & n & p & Hp & E)]]; rewrite E in Hin.
  - by apply IH.
  - apply elem_of_app in Hin as [Hin|Hin]; [by apply IH|].
    apply list_elem_of_singleton in Hin as ->. congruence.
  - apply list_elem_of_fmap in Hin as (t0 & -> & Hin0).
    destruct (decide (ticket_id t0 = n)); [|by apply IH].
    destruct (decode_patch_status b p Hp) as [Hs Hc]. simpl in *.
    destruct (p_closing p) eqn:Hclosing; [by eexists|].
    apply (IH t0 Hin0). unfold text_change in Hs.
    destruct (b !! "status") as [v|] eqn:Hv.
    + case_decide; [|done]. injection Hs as Hs. rewrite <- Hs in Hst.
      simpl in Hst. apply text_in_closed in Hst as ->.
      by rewrite bool_decide_eq_true_2 in Hc.
    + injection Hs as Hs. by rewrite <- Hs in Hst.
Qed.

Lemma closed_ticket_is_stamped_witness :
  (laptop_ticket ∈ tickets (run empty_store sample_trace)
   ∧ status laptop_ticket = Some "closed")
  ∧ is_Some (closed_at laptop_ticket).
Proof.
  split; [split; [compute_done | reflexivity]|].
  apply (closed_ticket_is_stamped sample_trace laptop_ticket);
    [compute_done | reflexivity].
Defined.

(** ** Logging in *)

Lemma users_by_email_unique (s : store) (v : user) (e : string) :
  emails_unique s → v ∈ users s → email v = Some e →
  users_by_email s (Some e) = [v].
Proof.
  unfold emails_unique, users_by_email. intros Hnd Hin He.
  induction (users s) as [|y l IH]; [by apply elem_of_nil in Hin|].
  assert (∀ z, z ∈ l → email z = Some e → e ∈ omap email l) as Hmem.
  { intros z Hz Hze. apply list_elem_of_omap. by exists z. }
  rewrite filter_cons. apply elem_of_cons in Hin as [<-|Hin].
  - simpl in Hnd. rewrite He in Hnd. apply NoDup_cons in Hnd as [Hfresh _].
    rewrite decide_True by done. f_equal.
    destruct (filter _ l) as [|z zs] eqn:E; [done|]. exfalso.
    assert (z ∈ z :: zs) as Hz by left. rewrite <- E in Hz.
    apply list_elem_of_filter in Hz as [Hze Hz]. by apply Hfresh, (Hmem z).
  - simpl in Hnd. destruct (email y) as [e'|] eqn:Hy.
    + apply NoDup_cons in Hnd as [Hfresh Hnd].
      rewrite decide_False; [by apply IH|].
      intros [= ->]. by apply Hfresh, (Hmem v).
    + rewrite decide_False by done. by apply IH.
Qed.



(** X23. A login with the email of a user and a password that matches the
    user's hash is answered 200 with that user's id, email, full name and
    role, and the token is signed over that id, email and role.  Emails are
    unique, as in every reachable store. *)
Theorem login_accepts `{!database} (s : store) (b : gmap string jsval)
    (compare : string → string → bool) (pw e : string) (v : user) :
  emails_unique s →
  v ∈ users s → email v = Some e →
  b !! "email" = Some (JStr e) →
  b !! "password" = Some (JStr pw) →
  compare pw (password_hash v) = true →
  post_auth_login s b compare
    = Sent 200 {| token := JwtPayload (user_id v) (Some e) (user_role v);
                  login_user_id := user_id v; login_email := Some e;
                  login_full_name := full_name v;
                  login_role := user_role v |}.
Proof.
  intros Hu Hin He Hb Hpw Hc. unfold post_auth_login. rewrite Hb, Hpw.
  change (text_param (Some (JStr e))) with (Some e).
  rewrite (users_by_email_unique s v e Hu Hin He).
  destruct v as [uid em hash name rl]. simpl in *. by rewrite Hc, He.
Qed.

Lemma login_accepts_witness :
  (emails_unique sample_store
   ∧ alice_row ∈ users sample_store
   ∧ email alice_row = Some "alice@example.com"
   ∧ alice_login_body "a" !! "email" = Some (JStr "alice@example.com")
   ∧ alice_login_body "a" !! "password" = Some (JStr "a")
   ∧ accepts_a "a" (password_hash alice_row) = true)
  ∧ post_auth_login sample_store (alice_login_body "a") accepts_a
    = Sent 200 {| token := JwtPayload (user_id alice_row)
                             (Some "alice@example.com") (user_role alice_row);
                  login_user_id := user_id alice_row;
                  login_email := Some "alice@example.com";
                  login_full_name := full_name alice_row;
                  login_role := user_role alice_row |}.
Proof.
  split; [repeat split; first [reflexivity | compute_done]|].
  apply (login_accepts sample_store (alice_login_body "a") accepts_a "a"
           "alice@example.com" alice_row);
    first [reflexivity | compute_done].
Defined.

(** X24. Registering and then logging in gives a token for the new user: a
    registration under a fresh email, with values the database takes,
    succeeds, and a login with the same body, once [bcrypt] matches the
    password against the stored hash, is answered 200 with a token signed
    over the id the registration answered, that email and the role the
    registration stored. *)
Theorem register_then_login `{!database} (s : store) (b : gmap string jsval)
    (compare : string → string → bool) (pw e h : string) :
  b !! "email" = Some (JStr e) →
  b !! "password" = Some (JStr pw) →
  register_taken b →
  Some e ∉ email <$> users s →
  compare pw h = true →
  ∃ uid rl name,
    (handle s (PostAuthRegister b h)).1
      = Json 201 (PUser uid (Some e) name rl)
    ∧ is_Some rl
    ∧ post_auth_login (handle s (PostAuthRegister b h)).2 b compare
      = Sent 200 {| token := JwtPayload uid (Some e) rl;
                    login_user_id := uid; login_email := Some e;
                    login_full_name := name; login_role := rl |}.
Proof.
  intros Hb Hpw Hok Hfresh Hc. simpl.
  unfold post_auth_register, insert_user, post_auth_login.
  unfold register_taken in Hok. rewrite Hpw, Hok, Hb.
  change (text_param (Some (JStr e))) with (Some e).
  rewrite bool_decide_eq_false_2 by (by intros [_ ?]).
  do 3 eexists. split; [reflexivity|]. simpl.
  assert (filter (λ u, email u = Some e) (users s) = []) as Hnone.
  { destruct (filter _ (users s)) as [|z zs] eqn:E; [done|]. exfalso.
    assert (z ∈ z :: zs) as Hz by left. rewrite <- E in Hz.
    apply list_elem_of_filter in Hz as [Hze Hz]. apply Hfresh.
    rewrite <- Hze. by apply list_elem_of_fmap_2. }
  rewrite filter_app, Hnone, filter_cons_True by done. simpl.
  rewrite Hc. split; [|done].
  destruct (b !! "role") as [[|[]|n|r]|]; simpl; try (by eexists).
  - by destruct (negb (n =? 0)); eexists.
  - by destruct (negb (String.eqb r "")); eexists.
Qed.

Lemma register_then_login_witness :
  (dave_body !! "email" = Some (JStr "dave@example.com")
   ∧ dave_body !! "password" = Some (JStr "d")
   ∧ register_taken dave_body
   ∧ (Some "dave@example.com" ∉ email <$> users sample_store)
   ∧ accepts_dave "d" "$2b$10$dave" = true)
  ∧ ∃ uid rl name,
      (handle sample_store (PostAuthRegister dave_body "$2b$10$dave")).1
        = Json 201 (PUser uid (Some "dave@example.com") name rl)
      ∧ is_Some rl
      ∧ post_auth_login
          (handle sample_store (PostAuthRegister dave_body "$2b$10$dave")).2
          dave_body accepts_dave
        = Sent 200 {| token := JwtPayload uid (Some "dave@example.com") rl;
                      login_user_id := uid;
                      login_email := Some "dave@example.com";
                      login_full_name := name; login_role := rl |}.
Proof.
  split; [repeat split; first [reflexivity | compute_done]|].
  apply (register_then_login sample_store dave_body accepts_dave "d"
           "dave@example.com" "$2b$10$dave");
    first [reflexivity | compute_done].
Defined.

(** ** The directory of consultants *)

(** X25. The directory lists the users one can assign a ticket to and no
    one else: for any authenticated caller the answer is 200, a user of the
    store is listed under its id exactly when its role is consultant or
    admin, and each listed entry is the id, full name and email of such a
    user.  [user_id] is the key of [users]. *)
Theorem consultants_listed (s : store) (u : jwt_user) :
  users_keyed s →
  ∃ l,
    authenticated (Token u) (get_consultants s) = Sent 200 l
    ∧ (∀ v, v ∈ users s →
         (user_id v ∈ (λ x, x.1.1) <$> l
          ↔ user_role v = Some "consultant" ∨ user_role v = Some "admin"))
    ∧ Forall (λ x, ∃ v, v ∈ users s ∧ x = (user_id v, full_name v, email v)
                        ∧ (user_role v = Some "consultant"
                           ∨ user_role v = Some "admin")) l.
Proof.
  intros Hk. eexists. split; [reflexivity|]. split.
  - intros v Hv. rewrite <- list_fmap_compose. split.
    + intros Hin. apply list_elem_of_fmap in Hin as (w & Hid & Hw).
      apply list_elem_of_filter in Hw as [Hrole Hw]. simpl in Hid.
      assert (v = w) as ->; [|done].
      unfold users_keyed in Hk. revert Hk Hv Hw Hid. generalize (users s).
      intros l Hnd Hv Hw Hid.
      pose proof (filter_unique_key user_id (λ y, user_id y = user_id w) l w
                    Hnd Hw) as Hf.
      assert (v ∈ filter (λ y, user_id y = user_id w) l) as Hvf
        by by apply list_elem_of_filter.
      rewrite Hf in Hvf by done. by apply list_elem_of_singleton in Hvf.
    + intros Hrole. apply list_elem_of_fmap. exists v. split; [done|].
      by apply list_elem_of_filter.
  - apply Forall_forall. intros x Hx.
    apply list_elem_of_fmap in Hx as (w & -> & Hw).
    apply list_elem_of_filter in Hw as [Hrole Hw]. by exists w.
Qed.

Lemma consultants_listed_witness :
  users_keyed sample_store
  ∧ ∃ l,
      authenticated (Token alice) (get_consultants sample_store) = Sent 200 l
      ∧ (∀ v, v ∈ users sample_store →
           (user_id v ∈ (λ x, x.1.1) <$> l
            ↔ user_role v = Some "consultant" ∨ user_role v = Some "admin"))
      ∧ Forall (λ x, ∃ v, v ∈ users sample_store
                          ∧ x = (user_id v, full_name v, email v)
                          ∧ (user_role v = Some "consultant"
                             ∨ user_role v = Some "admin")) l.
Proof.
  split; [compute_done|].
  apply (consultants_listed sample_store alice). compute_done.
Defined.

(** The directory of the sample store holds carol alone. *)
Example consultants_sample :
  authenticated (Token alice) (get_consultants sample_store)
  = Sent 200 [(3, Some "Carol", Some "carol@example.com")].
Proof. reflexivity. Qed.

(** ** More on the listing *)

(** X19. The listing is ordered by creation time, most recent first, and
    holds nothing but tickets of the store; for a client every listed
    ticket is the caller's own.  This needs no assumption on the [users]
    table. *)
Theorem listing_sorted_and_scoped `{!database} (s : store) (u : jwt_user) :
  ∃ rows,
    handle s (GetTickets (Token u)) = (Json 200 (PTicketRows rows), s)
    ∧ Sorted newest_first rows
    ∧ Forall (λ r, row_ticket r ∈ tickets s
                   ∧ (role u = "client" → client_id (row_ticket r) = userId u))
        rows.
Proof.
  simpl. unfold get_tickets. case_bool_decide as Hrole; eexists;
    (split; [reflexivity|]);
    (split; [apply (Sorted_merge_sort newest_first)|]);
    apply Forall_forall; intros r Hr; rewrite merge_sort_Permutation in Hr.
  - apply list_elem_of_filter in Hr as [Hown Hr].
    by apply select_tickets_elem in Hr as [Hr _].
  - by apply select_tickets_elem in Hr as [Hr _].
Qed.

(** ** Users *)

(** X26. Users are never removed or changed: whatever the request and its
    outcome, the users of the store are still there afterwards, with the
    same id, email, hash, name and role, and in the same order. *)
Theorem users_append_only `{!database} (s : store) (r : request) :
  users s `prefix_of` users (handle s r).2.
Proof.
  destruct (handle_users s r) as [[-> _]|(u & -> & _)]; [done|].
  by apply prefix_app_r.
Qed.

(** X27. In every store the server can reach from the empty one, every user
    has a role: registration stores the body's role or [client], never
    NULL. *)
Theorem reachable_users_have_role `{!database} (rs : list request) :
  Forall (λ v, is_Some (user_role v)) (users (run empty_store rs)).
Proof.
  induction rs as [|r rs IH] using rev_ind; [constructor|].
  rewrite run_snoc. set (s := run empty_store rs) in *.
  destruct (handle_effect s r)
    as [->|[->|[->|[->|[(v & -> & _ & Hrole & _)|[(t & -> & _)|[(c & ->)
       |(u & id & b & now & n & p & -> & _ & _ & _ & ->)]]]]]]];
    try done.
  simpl. apply Forall_app. split; [done|]. by apply Forall_singleton.
Qed.
